(** * Hedge-Bot dashboard controller (app/static/app.js)

    A shallow embedding of the browser-side controller: the API client, the
    stop-loss row management, config collection, the render function and the
    event handlers, followed by the properties of the specification.

    The page is a [World]: the instrument cards in document order, the log of
    [alert] calls, the log of issued requests and a store of the log arrays
    (the one place where the source calls a mutating array method).  A DOM
    element is referred to by its position, code that writes to the DOM or
    throws runs in the state-and-exception monad [M], and a write made before
    a [throw] stays made, as in JavaScript.  Tab switching ([setupTabs]) reads
    and writes class lists only; it has a state of its own, [Tabs]. *)

From Stdlib Require Import ZArith Ascii String DecimalString DecimalN.
From stdpp Require Import base list strings.

Set Warnings "-register-all".

Open Scope string_scope.
Open Scope list_scope.
Open Scope nat_scope.
Open Scope stdpp_scope.

(** ** The JavaScript runtime

    Numbers, their conversions and the string built-ins belong to the engine,
    not to this repository; they are an interface.  [num] is the Number type
    (NaN and the infinities included) up to [===], so [-0] and [0] are one
    value, as they are for [JSON.stringify]. *)
Class JsRuntime : Type := {
  num : Type;
  (** Number::toString, what a template literal and the [value] setter apply. *)
  num_to_string : num → string;
  parseFloat : string → num;
  isFinite : num → bool;
  (** ToBoolean on a number: false on 0 and NaN. *)
  num_truthy : num → bool;
  (** The literal [0]. *)
  num_zero : num;
  (** [Number.prototype.toFixed(2)]. *)
  toFixed2 : num → string;
  (** Value sanitisation of [<input type="number">]: a string that is not a
      valid floating-point number becomes the empty string. *)
  sanitize_number : string → string;
  (** [String.prototype.trim]. *)
  trim : string → string;
  (** [String.prototype.toLowerCase]. *)
  toLowerCase : string → string;
  (** [new Date(t).toLocaleString()]. *)
  date_toLocaleString : string → string;
}.

(** What ECMAScript and HTML guarantee about the interface: the decimal text
    of a finite number is a valid floating-point number, has no blank in it,
    and reads back as the same number. *)
Class JsRuntimeLaws (rt : JsRuntime) : Prop := {
  parseFloat_num_to_string :
    ∀ x : num, isFinite x = true → parseFloat (num_to_string x) = x;
  sanitize_num_to_string :
    ∀ x : num, isFinite x = true → sanitize_number (num_to_string x) = num_to_string x;
  trim_num_to_string :
    ∀ x : num, isFinite x = true → trim (num_to_string x) = num_to_string x;
  num_to_string_nonempty : ∀ x : num, num_to_string x ≠ "";
  sanitize_number_empty : sanitize_number "" = "";
  trim_empty : trim "" = "";
}.

(** Characters a string literal cannot hold. *)
Definition dq : string := String (ascii_of_nat 34) "".
Definition nl : string := String (ascii_of_nat 10) "".

(** ** Exceptions *)

(** The errors of the language, and the [DOMException] of the DOM with its
    name. *)
Inductive Exn : Type :=
  | Error (msg : string)
  | TypeError (msg : string)
  | SyntaxError (msg : string)
  | DOMException (name msg : string).

(** [error.message]. *)
Definition exn_message (e : Exn) : string :=
  match e with Error m | TypeError m | SyntaxError m | DOMException _ m => m end.

(** How a piece of code ends: with a value, or by throwing. *)
Inductive Result (A : Type) : Type :=
  | Ok (a : A)
  | Throw (e : Exn).
Arguments Ok {A} a.
Arguments Throw {A} e.

(** ** Selectors built from a value

    [updateAll] and [setupTabs] build a selector by writing a value between
    the double quotes of an attribute selector.  When the value holds no
    double quote, no backslash, no line break (line feed, carriage return,
    form feed) and no NUL, the text between the quotes is a CSS string whose
    value is the value itself, and the selector selects the elements whose
    attribute equals it.  With any other value the text is another selector:
    one that does not parse, for which [querySelector] throws a
    [DOMException] named SyntaxError, or one that selects by something else.
    Of these the model has the first; every property of a selection is
    stated for safe values. *)
Definition selector_safe (value : string) : bool :=
  forallb (λ a, match nat_of_ascii a with
                | 0 | 10 | 12 | 13 | 34 | 92 => false
                | _ => true
                end)
          (list_ascii_of_string value).

(** The exception of [querySelector], called on [interface], for a selector
    that does not parse. *)
Definition invalid_selector (interface selector : string) : Exn :=
  DOMException "SyntaxError"
    ("Failed to execute 'querySelector' on '" +:+ interface +:+ "': '" +:+ selector
     +:+ "' is not a valid selector.").

Section Dashboard.

Context {rt : JsRuntime}.

(** ** Data model *)

(** A parsed JSON document.  An object is the list of its own properties. *)
Inductive Json : Type :=
  | JNull
  | JBool (b : bool)
  | JNum (n : num)
  | JStr (s : string)
  | JArr (items : list Json)
  | JObj (fields : list (string * Json)).

Record TakeProfit : Type := {
  label : string;
  tp_offset_percent : num;
  tp_volume_percent : num;
}.

Record StopLoss : Type := {
  sl_offset_percent : num;
  sl_volume_percent : num;
}.

(** [None] is [null]. *)
Record Tp1Dca : Type := {
  enabled : bool;
  dca_offset_percent : option num;
  quantity : option num;
}.

Record InstrumentConfig : Type := {
  entry_amount : num;
  take_profits : list TakeProfit;
  stop_losses : list StopLoss;
  tp1_dca : Tp1Dca;
}.

(** The object [collectConfig] returns: the config fields and the symbol. *)
Record ConfigPayload : Type := {
  payload_symbol : string;
  payload_entry_amount : num;
  payload_take_profits : list TakeProfit;
  payload_stop_losses : list StopLoss;
  payload_tp1_dca : Tp1Dca;
}.

Record Order : Type := {
  order_id : string;
  order_type : string;
  order_side : string;
  order_quantity : option num;
  order_status : string;
}.

Record DcaOrder : Type := {
  dca_order_id : string;
  dca_order_side : string;
  dca_order_quantity : option num;
  dca_order_status : string;
}.

Record LogEntry : Type := {
  timestamp : string;
  level : string;
  message : string;
}.

Record Positions : Type := {
  LONG : option num;
  SHORT : option num;
}.

(** [logs] is a reference into the array store of the [World]. *)
Record InstrumentState : Type := {
  symbol : string;
  config : InstrumentConfig;
  is_running : bool;
  positions : Positions;
  open_orders : list Order;
  dca_orders : list DcaOrder;
  logs : nat;
}.

Record ManagerState : Type := {
  instruments : list InstrumentState;
}.

(** ** The DOM of a card

    The page template is not part of the source file; a card holds the
    elements the controller selects, each once.  Inputs hold their [value]
    string.  The children of [.stop-loss-list] are its [.stop-loss-row]s.
    The three list containers may be missing: the source tests for them. *)

Record TpRow : Type := {
  data_label : string;
  tp_offset_input : string;
  tp_volume_input : string;
}.

Record StopLossRow : Type := {
  sl_offset_input : string;
  sl_volume_input : string;
}.

Record Card : Type := {
  data_symbol : string;
  entry_amount_input : string;
  tp_rows : list TpRow;
  stop_loss_list : list StopLossRow;
  dca_enabled_checked : bool;
  dca_offset_input : string;
  dca_quantity_input : string;
  data_running : string;
  status_indicator_text : string;
  status_text : string;
  position_LONG_text : string;
  position_SHORT_text : string;
  open_orders_tbody : option string;
  dca_table_tbody : option string;
  log_list_ul : option string;
}.

Definition with_entry_amount_input (v : string) (c : Card) : Card :=
  {| data_symbol := data_symbol c; entry_amount_input := v; tp_rows := tp_rows c;
     stop_loss_list := stop_loss_list c; dca_enabled_checked := dca_enabled_checked c;
     dca_offset_input := dca_offset_input c; dca_quantity_input := dca_quantity_input c;
     data_running := data_running c; status_indicator_text := status_indicator_text c;
     status_text := status_text c; position_LONG_text := position_LONG_text c;
     position_SHORT_text := position_SHORT_text c; open_orders_tbody := open_orders_tbody c;
     dca_table_tbody := dca_table_tbody c; log_list_ul := log_list_ul c |}.

Definition with_tp_rows (v : list TpRow) (c : Card) : Card :=
  {| data_symbol := data_symbol c; entry_amount_input := entry_amount_input c; tp_rows := v;
     stop_loss_list := stop_loss_list c; dca_enabled_checked := dca_enabled_checked c;
     dca_offset_input := dca_offset_input c; dca_quantity_input := dca_quantity_input c;
     data_running := data_running c; status_indicator_text := status_indicator_text c;
     status_text := status_text c; position_LONG_text := position_LONG_text c;
     position_SHORT_text := position_SHORT_text c; open_orders_tbody := open_orders_tbody c;
     dca_table_tbody := dca_table_tbody c; log_list_ul := log_list_ul c |}.

Definition with_stop_loss_list (v : list StopLossRow) (c : Card) : Card :=
  {| data_symbol := data_symbol c; entry_amount_input := entry_amount_input c;
     tp_rows := tp_rows c; stop_loss_list := v; dca_enabled_checked := dca_enabled_checked c;
     dca_offset_input := dca_offset_input c; dca_quantity_input := dca_quantity_input c;
     data_running := data_running c; status_indicator_text := status_indicator_text c;
     status_text := status_text c; position_LONG_text := position_LONG_text c;
     position_SHORT_text := position_SHORT_text c; open_orders_tbody := open_orders_tbody c;
     dca_table_tbody := dca_table_tbody c; log_list_ul := log_list_ul c |}.

(** The [tp1_dca] controls: the checkbox and its two inputs. *)
Definition with_dca_enabled_checked (v : bool) (c : Card) : Card :=
  {| data_symbol := data_symbol c; entry_amount_input := entry_amount_input c;
     tp_rows := tp_rows c; stop_loss_list := stop_loss_list c; dca_enabled_checked := v;
     dca_offset_input := dca_offset_input c; dca_quantity_input := dca_quantity_input c;
     data_running := data_running c; status_indicator_text := status_indicator_text c;
     status_text := status_text c; position_LONG_text := position_LONG_text c;
     position_SHORT_text := position_SHORT_text c; open_orders_tbody := open_orders_tbody c;
     dca_table_tbody := dca_table_tbody c; log_list_ul := log_list_ul c |}.

Definition with_dca_offset_input (v : string) (c : Card) : Card :=
  {| data_symbol := data_symbol c; entry_amount_input := entry_amount_input c;
     tp_rows := tp_rows c; stop_loss_list := stop_loss_list c;
     dca_enabled_checked := dca_enabled_checked c; dca_offset_input := v;
     dca_quantity_input := dca_quantity_input c;
     data_running := data_running c; status_indicator_text := status_indicator_text c;
     status_text := status_text c; position_LONG_text := position_LONG_text c;
     position_SHORT_text := position_SHORT_text c; open_orders_tbody := open_orders_tbody c;
     dca_table_tbody := dca_table_tbody c; log_list_ul := log_list_ul c |}.

Definition with_dca_quantity_input (v : string) (c : Card) : Card :=
  {| data_symbol := data_symbol c; entry_amount_input := entry_amount_input c;
     tp_rows := tp_rows c; stop_loss_list := stop_loss_list c;
     dca_enabled_checked := dca_enabled_checked c; dca_offset_input := dca_offset_input c;
     dca_quantity_input := v;
     data_running := data_running c; status_indicator_text := status_indicator_text c;
     status_text := status_text c; position_LONG_text := position_LONG_text c;
     position_SHORT_text := position_SHORT_text c; open_orders_tbody := open_orders_tbody c;
     dca_table_tbody := dca_table_tbody c; log_list_ul := log_list_ul c |}.

(** The status indicator ([dataset.running] and its text) and the status text. *)
Definition with_status (running indicator text : string) (c : Card) : Card :=
  {| data_symbol := data_symbol c; entry_amount_input := entry_amount_input c;
     tp_rows := tp_rows c; stop_loss_list := stop_loss_list c;
     dca_enabled_checked := dca_enabled_checked c; dca_offset_input := dca_offset_input c;
     dca_quantity_input := dca_quantity_input c;
     data_running := running; status_indicator_text := indicator;
     status_text := text; position_LONG_text := position_LONG_text c;
     position_SHORT_text := position_SHORT_text c; open_orders_tbody := open_orders_tbody c;
     dca_table_tbody := dca_table_tbody c; log_list_ul := log_list_ul c |}.

Definition with_positions (long short : string) (c : Card) : Card :=
  {| data_symbol := data_symbol c; entry_amount_input := entry_amount_input c;
     tp_rows := tp_rows c; stop_loss_list := stop_loss_list c;
     dca_enabled_checked := dca_enabled_checked c; dca_offset_input := dca_offset_input c;
     dca_quantity_input := dca_quantity_input c;
     data_running := data_running c; status_indicator_text := status_indicator_text c;
     status_text := status_text c; position_LONG_text := long;
     position_SHORT_text := short; open_orders_tbody := open_orders_tbody c;
     dca_table_tbody := dca_table_tbody c; log_list_ul := log_list_ul c |}.

Definition with_open_orders_tbody (v : option string) (c : Card) : Card :=
  {| data_symbol := data_symbol c; entry_amount_input := entry_amount_input c;
     tp_rows := tp_rows c; stop_loss_list := stop_loss_list c;
     dca_enabled_checked := dca_enabled_checked c; dca_offset_input := dca_offset_input c;
     dca_quantity_input := dca_quantity_input c;
     data_running := data_running c; status_indicator_text := status_indicator_text c;
     status_text := status_text c; position_LONG_text := position_LONG_text c;
     position_SHORT_text := position_SHORT_text c; open_orders_tbody := v;
     dca_table_tbody := dca_table_tbody c; log_list_ul := log_list_ul c |}.

Definition with_dca_table_tbody (v : option string) (c : Card) : Card :=
  {| data_symbol := data_symbol c; entry_amount_input := entry_amount_input c;
     tp_rows := tp_rows c; stop_loss_list := stop_loss_list c;
     dca_enabled_checked := dca_enabled_checked c; dca_offset_input := dca_offset_input c;
     dca_quantity_input := dca_quantity_input c;
     data_running := data_running c; status_indicator_text := status_indicator_text c;
     status_text := status_text c; position_LONG_text := position_LONG_text c;
     position_SHORT_text := position_SHORT_text c; open_orders_tbody := open_orders_tbody c;
     dca_table_tbody := v; log_list_ul := log_list_ul c |}.

Definition with_log_list_ul (v : option string) (c : Card) : Card :=
  {| data_symbol := data_symbol c; entry_amount_input := entry_amount_input c;
     tp_rows := tp_rows c; stop_loss_list := stop_loss_list c;
     dca_enabled_checked := dca_enabled_checked c; dca_offset_input := dca_offset_input c;
     dca_quantity_input := dca_quantity_input c;
     data_running := data_running c; status_indicator_text := status_indicator_text c;
     status_text := status_text c; position_LONG_text := position_LONG_text c;
     position_SHORT_text := position_SHORT_text c; open_orders_tbody := open_orders_tbody c;
     dca_table_tbody := dca_table_tbody c; log_list_ul := v |}.

Definition with_tp_offset_input (v : string) (r : TpRow) : TpRow :=
  {| data_label := data_label r; tp_offset_input := v; tp_volume_input := tp_volume_input r |}.

Definition with_tp_volume_input (v : string) (r : TpRow) : TpRow :=
  {| data_label := data_label r; tp_offset_input := tp_offset_input r; tp_volume_input := v |}.

(** ** Requests and replies *)

(** What [fetch] is called with.  The body is the payload that
    [JSON.stringify] serialises (a list keeps its length in the JSON text). *)
Record Request : Type := {
  url : string;
  method : string;
  body : option ConfigPayload;
}.

(** What [response.json()] settles to: a rejection, or a document.  A
    document of the shape the endpoint promises is [Data]; any other document
    (an error object, [null], ...) is a [Document].  Of a [Document] the
    renders are modelled as far as their first property read, which throws
    when the document has no [config] (no [instruments]); [event_shaped]
    says that a reply is one of these. *)
Inductive Parsed (T : Type) : Type :=
  | ParseFailure (reason : string)
  | Document (j : Json)
  | Data (v : T).
Arguments ParseFailure {T} reason.
Arguments Document {T} j.
Arguments Data {T} v.

Record Response (T : Type) : Type := {
  status : Z;
  statusText : string;
  json : Parsed T;
}.
Arguments status {T} r.
Arguments statusText {T} r.
Arguments json {T} r.

(** The answer of the network to one [fetch]: a rejection (no response at
    all) or a response. *)
Inductive Reply (T : Type) : Type :=
  | NetworkFailure (reason : string)
  | Responded (response : Response T).
Arguments NetworkFailure {T} reason.
Arguments Responded {T} response.

(** What an API call resolves to. *)
Inductive Value (T : Type) : Type :=
  | VJson (j : Json)
  | VData (v : T).
Arguments VJson {T} j.
Arguments VData {T} v.

(** ** The page and the monad of its code *)

(** The cards of the document, what [alert] has shown, what [fetch] was
    called with, and the log arrays in memory. *)
Record World : Type := {
  cards : list Card;
  alerts : list string;
  requests : list Request;
  arrays : list (list LogEntry);
}.

Definition with_cards (v : list Card) (w : World) : World :=
  {| cards := v; alerts := alerts w; requests := requests w; arrays := arrays w |}.
Definition with_alerts (v : list string) (w : World) : World :=
  {| cards := cards w; alerts := v; requests := requests w; arrays := arrays w |}.
Definition with_requests (v : list Request) (w : World) : World :=
  {| cards := cards w; alerts := alerts w; requests := v; arrays := arrays w |}.
Definition with_arrays (v : list (list LogEntry)) (w : World) : World :=
  {| cards := cards w; alerts := alerts w; requests := requests w; arrays := v |}.

(** Code that reads and writes the page and ends with a value or by throwing. *)
Definition M (A : Type) : Type := World → World * Result A.

#[global] Instance M_ret : MRet M := λ A a w, (w, Ok a).
#[global] Instance M_bind : MBind M := λ A B f m w,
  match m w with
  | (w', Ok a) => f a w'
  | (w', Throw e) => (w', Throw e)
  end.

(** [throw e]. *)
Definition throw {A : Type} (e : Exn) : M A := λ w, (w, Throw e).

(** [try { m } catch (error) { handler error }]. *)
Definition try_catch {A : Type} (m : M A) (handler : Exn → M A) : M A := λ w,
  match m w with
  | (w', Ok a) => (w', Ok a)
  | (w', Throw e) => handler e w'
  end.

(** [alert(msg)]: the notification is recorded. *)
Definition alert (msg : string) : M unit := λ w,
  (with_alerts (alerts w ++ [msg]) w, Ok tt).

(** Reading an element.  A reference held by running code always names an
    element; a position outside the page reads as [null]. *)
Definition the_card (card : nat) : M Card := λ w,
  match cards w !! card with
  | Some c => (w, Ok c)
  | None => (w, Throw (TypeError "Cannot read properties of null"))
  end.

(** A write to an element of the card. *)
Definition update_card (card : nat) (f : Card → Card) : M unit := λ w,
  (with_cards (alter f card (cards w)) w, Ok tt).

(** [items.forEach((item, index) => ...)]. *)
Fixpoint forEach {A : Type} (items : list A) (callback : A → nat → M unit)
    (index : nat) : M unit :=
  match items with
  | [] => mret tt
  | item :: rest => callback item index;; forEach rest callback (S index)
  end.

(** ** JavaScript values *)

(** An expression whose value may be [undefined]: [None]. *)
Definition JsValue : Type := option Json.

(** ToBoolean. *)
Definition truthy (v : JsValue) : bool :=
  match v with
  | None | Some JNull => false
  | Some (JBool b) => b
  | Some (JNum n) => num_truthy n
  | Some (JStr s) => negb (String.eqb s "")
  | Some (JArr _) | Some (JObj _) => true
  end.

(** [a || b]. *)
Definition or_else (a b : JsValue) : JsValue := if truthy a then a else b.

(** Whether an object has an own property [name]. *)
Definition has_own (name : string) (fields : list (string * Json)) : bool :=
  existsb (λ field, String.eqb (fst field) name) fields.

(** The own property [name] of an object.  Of the members of a JSON object
    that have one name, [JSON.parse] keeps the last. *)
Definition own_property (name : string) (fields : list (string * Json)) : JsValue :=
  snd <$> List.find (λ field, String.eqb (fst field) name) (rev fields).

(** The results of a list of conversions made from left to right: the first
    one that throws ends them. *)
Fixpoint all_ok {A : Type} (results : list (Result A)) : Result (list A) :=
  match results with
  | [] => Ok []
  | Ok a :: rest =>
      match all_ok rest with
      | Ok others => Ok (a :: others)
      | Throw e => Throw e
      end
  | Throw e :: _ => Throw e
  end.

(** The TypeError of OrdinaryToPrimitive when neither [toString] nor
    [valueOf] gives a primitive. *)
Definition not_primitive : Exn := TypeError "Cannot convert object to primitive value".

(** ToString on a document.  An array joins its elements with a comma,
    [null] elements as the empty string.  An object of a JSON document
    inherits [toString] from [Object.prototype], which gives
    ["[object Object]"], unless it has an own property [toString]: that one
    is not callable, the [valueOf] that is found gives no primitive either,
    and the conversion throws. *)
Fixpoint ToString (j : Json) : Result string :=
  match j with
  | JNull => Ok "null"
  | JBool true => Ok "true"
  | JBool false => Ok "false"
  | JNum n => Ok (num_to_string n)
  | JStr s => Ok s
  | JArr items =>
      match all_ok (map (λ item, match item with JNull => Ok "" | _ => ToString item end)
                        items) with
      | Ok parts => Ok (String.concat "," parts)
      | Throw e => Throw e
      end
  | JObj fields => if has_own "toString" fields then Throw not_primitive
                   else Ok "[object Object]"
  end.

(** [new Error(message)]: the message is converted to a string, which may
    throw; with [undefined] the error has the empty message of the
    prototype. *)
Definition new_Error (message : JsValue) : Result Exn :=
  match message with
  | Some j =>
      match ToString j with
      | Ok msg => Ok (Error msg)
      | Throw e => Throw e
      end
  | None => Ok (Error "")
  end.

(** What [throw new Error(message)] throws: the error, or what its
    construction threw. *)
Definition thrown (error : Result Exn) : Exn :=
  match error with Ok e | Throw e => e end.

(** ** API client *)

(** The [options] of a request; the headers play no part here. *)
Record Options : Type := {
  opt_method : option string;
  opt_body : option ConfigPayload;
}.

Definition no_options : Options := {| opt_method := None; opt_body := None |}.
Definition POST : Options := {| opt_method := Some "POST"; opt_body := None |}.

(** [fetch(url, {headers, ...options})], answered by [reply]. *)
Definition fetch {T : Type} (url : string) (options : Options) (reply : Reply T)
    : M (Response T) := λ w,
  let request :=
    {| url := url; method := default "GET" (opt_method options);
       body := opt_body options |} in
  let w' := with_requests (requests w ++ [request]) w in
  match reply with
  | NetworkFailure reason => (w', Throw (TypeError reason))
  | Responded response => (w', Ok response)
  end.

(** [response.ok]: the status is in the range 200-299. *)
Definition ok {T : Type} (response : Response T) : bool :=
  (200 <=? status response)%Z && (status response <=? 299)%Z.

(** [response.json()]. *)
Definition response_json {T : Type} (response : Response T) : M (Value T) :=
  match json response with
  | ParseFailure reason => throw (SyntaxError reason)
  | Document j => mret (VJson j)
  | Data v => mret (VData v)
  end.

(** [detail.detail].  The records of the data model have no such property. *)
Definition detail_of {T : Type} (detail : Value T) : M JsValue :=
  match detail with
  | VJson JNull => throw (TypeError "Cannot read properties of null (reading 'detail')")
  | VJson (JObj fields) => mret (own_property "detail" fields)
  | VJson _ => mret None
  | VData _ => mret None
  end.

Definition fallback_message : string := "Ошибка запроса".

(** [API.request(url, options)]. *)
Definition API_request {T : Type} (url : string) (options : Options) (reply : Reply T)
    : M (Value T) :=
  response ← fetch url options reply;
  if negb (ok response) then
    detail ← try_catch (response_json response) (λ _, mret (VJson (JObj [])));
    d ← detail_of detail;
    let message :=
      or_else (or_else d (Some (JStr (statusText response))))
              (Some (JStr fallback_message)) in
    throw (thrown (new_Error message))
  else if (status response =? 204)%Z then mret (VJson JNull)
  else response_json response.

(** The methods of [API]; each issues one request, answered by [reply]. *)
Definition API_listInstruments {T : Type} (reply : Reply T) : M (Value T) :=
  API_request "/api/instruments" no_options reply.

Definition API_updateConfig {T : Type} (symbol : string) (payload : ConfigPayload)
    (reply : Reply T) : M (Value T) :=
  API_request ("/api/instruments/" +:+ symbol +:+ "/config")
    {| opt_method := Some "POST"; opt_body := Some payload |} reply.

Definition API_start {T : Type} (symbol : string) (reply : Reply T) : M (Value T) :=
  API_request ("/api/instruments/" +:+ symbol +:+ "/start") POST reply.

Definition API_stop {T : Type} (symbol : string) (reply : Reply T) : M (Value T) :=
  API_request ("/api/instruments/" +:+ symbol +:+ "/stop") POST reply.

Definition API_close {T : Type} (symbol : string) (reply : Reply T) : M (Value T) :=
  API_request ("/api/instruments/" +:+ symbol +:+ "/close") POST reply.

Definition API_startAll {T : Type} (reply : Reply T) : M (Value T) :=
  API_request "/api/instruments/start_all" POST reply.

Definition API_stopAll {T : Type} (reply : Reply T) : M (Value T) :=
  API_request "/api/instruments/stop_all" POST reply.

Definition API_refreshInstrument {T : Type} (symbol : string) (reply : Reply T)
    : M (Value T) :=
  API_request ("/api/instruments/" +:+ symbol) no_options reply.

(** The methods of the client, to speak of all of them at once. *)
Inductive ApiMethod : Type :=
  | ListInstruments
  | UpdateConfig (symbol : string) (payload : ConfigPayload)
  | Start (symbol : string)
  | Stop (symbol : string)
  | Close (symbol : string)
  | StartAll
  | StopAll
  | RefreshInstrument (symbol : string).

(** The call of a method. *)
Definition API_call {T : Type} (m : ApiMethod) (reply : Reply T) : M (Value T) :=
  match m with
  | ListInstruments => API_listInstruments reply
  | UpdateConfig symbol payload => API_updateConfig symbol payload reply
  | Start symbol => API_start symbol reply
  | Stop symbol => API_stop symbol reply
  | Close symbol => API_close symbol reply
  | StartAll => API_startAll reply
  | StopAll => API_stopAll reply
  | RefreshInstrument symbol => API_refreshInstrument symbol reply
  end.

(** ** Stop-loss rows *)

(** [`${offset}`] for a parameter that defaults to the empty string ([None]
    is the omitted argument), and [x ?? ""] assigned to a [value]. *)
Definition template_text (v : option num) : string :=
  match v with
  | Some x => num_to_string x
  | None => ""
  end.

(** The row element; its inputs are number inputs, so the [value] attribute
    of the markup is sanitised.  The click handler of its remove control is
    [remove_stop_click]. *)
Definition createStopLossRow (offset volume : option num) : StopLossRow :=
  {| sl_offset_input := sanitize_number (template_text offset);
     sl_volume_input := sanitize_number (template_text volume) |}.

(** [row.remove()], for the [row]-th child of the container of [card]. *)
Definition remove_stop_click (card row : nat) : M unit :=
  update_card card (λ c, with_stop_loss_list (delete row (stop_loss_list c)) c).

Definition appendChild (container : nat) (row : StopLossRow) : M unit :=
  update_card container (λ c, with_stop_loss_list (stop_loss_list c ++ [row]) c).

(** The container [.stop-loss-list] of a card is referred to by the card. *)
Definition collectStopLosses (container : nat) : M (list StopLoss) :=
  c ← the_card container;
  mret (map (λ row,
              {| sl_offset_percent := parseFloat (sl_offset_input row);
                 sl_volume_percent := parseFloat (sl_volume_input row) |})
            (stop_loss_list c)).

Definition renderStopLosses (container : nat) (stopLosses : list StopLoss) : M unit :=
  update_card container (with_stop_loss_list []);;
  forEach stopLosses
    (λ sl _, appendChild container
               (createStopLossRow (Some (sl_offset_percent sl))
                                  (Some (sl_volume_percent sl))))
    0.

(** ** Config collection *)

Definition dca_required_message : string :=
  "Для включенной доливки необходимо указать отступ и объём".

(** [!s] on a string. *)
Definition is_empty (s : string) : bool := String.eqb s "".

Definition collectConfig (card : nat) : M ConfigPayload :=
  c ← the_card card;
  let symbol := data_symbol c in
  let entryAmount := parseFloat (entry_amount_input c) in
  let takeProfits :=
    map (λ row,
          {| label := data_label row;
             tp_offset_percent := parseFloat (tp_offset_input row);
             tp_volume_percent := parseFloat (tp_volume_input row) |})
        (tp_rows c) in
  stopLosses ← collectStopLosses card;
  let dcaEnabled := dca_enabled_checked c in
  let dcaOffsetValue := trim (dca_offset_input c) in
  let dcaQuantityValue := trim (dca_quantity_input c) in
  if dcaEnabled && (is_empty dcaOffsetValue || is_empty dcaQuantityValue) then
    throw (Error dca_required_message)
  else
    let tp1Dca :=
      {| enabled := dcaEnabled;
         dca_offset_percent :=
           if is_empty dcaOffsetValue then None else Some (parseFloat dcaOffsetValue);
         quantity :=
           if is_empty dcaQuantityValue then None
           else Some (parseFloat dcaQuantityValue) |} in
    mret {| payload_symbol := symbol;
            payload_entry_amount := entryAmount;
            payload_take_profits := takeProfits;
            payload_stop_losses := stopLosses;
            payload_tp1_dca := tp1Dca |}.

(** ** Render *)

(** [input.value = v] on a number input. *)
Definition set_value (v : string) : string := sanitize_number v.

Definition update_tp_row (card row : nat) (f : TpRow → TpRow) : M unit :=
  update_card card (λ c, with_tp_rows (alter f row (tp_rows c)) c).

(** [data.logs.slice()]: a new array with the same entries. *)
Definition array_slice (array : nat) : M nat := λ w,
  (with_arrays (arrays w ++ [arrays w !!! array]) w, Ok (length (arrays w))).

(** [array.reverse()]: reverses the array in place and returns it. *)
Definition array_reverse (array : nat) : M nat := λ w,
  (with_arrays (alter (@rev LogEntry) array (arrays w)) w, Ok array).

Definition array_entries (array : nat) : M (list LogEntry) := λ w,
  (w, Ok (arrays w !!! array)).

Definition order_row (order : Order) : string :=
  nl +:+ "        <tr>" +:+ nl +:+
  "          <td>" +:+ order_id order +:+ "</td>" +:+ nl +:+
  "          <td>" +:+ order_type order +:+ "</td>" +:+ nl +:+
  "          <td>" +:+ order_side order +:+ "</td>" +:+ nl +:+
  "          <td>" +:+ toFixed2 (default num_zero (order_quantity order)) +:+ "</td>" +:+ nl +:+
  "          <td>" +:+ order_status order +:+ "</td>" +:+ nl +:+
  "        </tr>" +:+ nl +:+ "      ".

Definition dca_order_row (order : DcaOrder) : string :=
  nl +:+ "        <tr>" +:+ nl +:+
  "          <td>" +:+ dca_order_id order +:+ "</td>" +:+ nl +:+
  "          <td>" +:+ dca_order_side order +:+ "</td>" +:+ nl +:+
  "          <td>" +:+ toFixed2 (default num_zero (dca_order_quantity order)) +:+ "</td>" +:+ nl +:+
  "          <td>" +:+ dca_order_status order +:+ "</td>" +:+ nl +:+
  "        </tr>" +:+ nl +:+ "      ".

Definition log_item (entry : LogEntry) : string :=
  nl +:+ "        <li>" +:+ nl +:+
  "          <time>" +:+ date_toLocaleString (timestamp entry) +:+ "</time>" +:+ nl +:+
  "          <span class=" +:+ dq +:+ "level level-" +:+ toLowerCase (level entry) +:+ dq +:+ ">"
    +:+ level entry +:+ "</span>" +:+ nl +:+
  "          <span class=" +:+ dq +:+ "message" +:+ dq +:+ ">" +:+ message entry +:+ "</span>"
    +:+ nl +:+
  "        </li>" +:+ nl +:+ "      ".

Definition running_text (is_running : bool) : string :=
  if is_running then "Работает" else "Остановлен".

Definition undefined_take_profit : Exn :=
  TypeError "Cannot read properties of undefined (reading 'offset_percent')".

(** The callback of [tpRows.forEach]: [(row, index) => { ... }].  A row
    element of the card is referred to by its position among the rows. *)
Definition render_tp_row (card : nat) (data : InstrumentState) (row index : nat) : M unit :=
  match take_profits (config data) !! index with
  | None => throw undefined_take_profit
  | Some tp =>
      update_tp_row card row
        (with_tp_offset_input (set_value (num_to_string (tp_offset_percent tp))));;
      update_tp_row card row
        (with_tp_volume_input (set_value (num_to_string (tp_volume_percent tp))))
  end.

(** The body of [renderInstrument] once [data] is an instrument state. *)
Definition render_state (card : nat) (data : InstrumentState) : M unit :=
  c ← the_card card;
  update_card card
    (with_entry_amount_input (set_value (num_to_string (entry_amount (config data)))));;
  let tpRows := seq 0 (length (tp_rows c)) in
  forEach tpRows (render_tp_row card data) 0;;
  renderStopLosses card (stop_losses (config data));;
  update_card card (with_dca_enabled_checked (enabled (tp1_dca (config data))));;
  update_card card
    (with_dca_offset_input
       (set_value (template_text (dca_offset_percent (tp1_dca (config data))))));;
  update_card card
    (with_dca_quantity_input
       (set_value (template_text (quantity (tp1_dca (config data))))));;
  update_card card
    (with_status (if is_running data then "true" else "false")
                 (running_text (is_running data)) (running_text (is_running data)));;
  let longPosition := default num_zero (LONG (positions data)) in
  let shortPosition := default num_zero (SHORT (positions data)) in
  update_card card (with_positions (toFixed2 longPosition) (toFixed2 shortPosition));;
  (if open_orders_tbody c is Some _ then
     update_card card
       (with_open_orders_tbody (Some (String.concat "" (map order_row (open_orders data)))))
   else mret tt);;
  (if dca_table_tbody c is Some _ then
     update_card card
       (with_dca_table_tbody (Some (String.concat "" (map dca_order_row (dca_orders data)))))
   else mret tt);;
  (if log_list_ul c is Some _ then
     copy ← array_slice (logs data);
     reversed ← array_reverse copy;
     entries ← array_entries reversed;
     update_card card (with_log_list_ul (Some (String.concat "" (map log_item entries))))
   else mret tt).

(** [renderInstrument(card, data)] for whatever the API call resolved to:
    on [null], and on a document without a [config], the first property read
    [data.config.entry_amount] throws before anything is written.  A document
    that has a [config] without having the shape of a state is rendered by
    the code as far as its shape goes; the model does not follow it there,
    and [event_shaped] names the replies that are not of that kind. *)
Definition renderInstrument (card : nat) (data : Value InstrumentState) : M unit :=
  match data with
  | VData data => render_state card data
  | VJson JNull => throw (TypeError "Cannot read properties of null (reading 'config')")
  | VJson _ => throw (TypeError "Cannot read properties of undefined (reading 'entry_amount')")
  end.

(** ** Event handlers *)

Definition stop_loss_limit_message : string := "Можно задать не более 10 стоп-лоссов".

(** The click handler of [.add-stop]. *)
Definition add_stop_click (card : nat) : M unit :=
  c ← the_card card;
  if (10 <=? length (stop_loss_list c))%nat then alert stop_loss_limit_message
  else appendChild card (createStopLossRow None None).

(** The [submit] handler of the config form; [reply] answers its request.
    ([event.preventDefault()] has no effect on the page.) *)
Definition submit (card : nat) (reply : Reply InstrumentState) : M unit :=
  c ← the_card card;
  let symbol := data_symbol c in
  try_catch
    (config ← collectConfig card;
     data ← API_updateConfig symbol config reply;
     renderInstrument card data;;
     alert "Настройки обновлены")
    (λ error, alert (exn_message error)).

(** The click handlers of [setupStatusActions] and [setupLogRefresh].  The
    symbol they use is the [data-symbol] of the card, which nothing writes. *)
Definition start_click (card : nat) (reply : Reply InstrumentState) : M unit :=
  c ← the_card card;
  try_catch
    (data ← API_start (data_symbol c) reply;
     renderInstrument card data)
    (λ error, alert (exn_message error)).

Definition stop_click (card : nat) (reply : Reply InstrumentState) : M unit :=
  c ← the_card card;
  try_catch
    (data ← API_stop (data_symbol c) reply;
     renderInstrument card data)
    (λ error, alert (exn_message error)).

(** [confirmed] is the answer to the [confirm] dialog. *)
Definition close_click (card : nat) (confirmed : bool) (reply : Reply InstrumentState)
    : M unit :=
  c ← the_card card;
  if negb confirmed then mret tt
  else
    try_catch
      (data ← API_close (data_symbol c) reply;
       renderInstrument card data)
      (λ error, alert (exn_message error)).

Definition refresh_click (card : nat) (reply : Reply InstrumentState) : M unit :=
  c ← the_card card;
  try_catch
    (data ← API_refreshInstrument (data_symbol c) reply;
     renderInstrument card data)
    (λ error, alert (exn_message error)).

(** The selector that [updateAll] builds from a symbol. *)
Definition card_selector (symbol : string) : string :=
  ".instrument-card[data-symbol=" +:+ dq +:+ symbol +:+ dq +:+ "]".

(** [document.querySelector(`.instrument-card[data-symbol="${symbol}"]`)]:
    for a safe symbol, the first card in document order with that symbol. *)
Definition querySelector_card (symbol : string) : M (option nat) := λ w,
  if selector_safe symbol then
    (w, Ok (fst <$> list_find (λ c, data_symbol c = symbol) (cards w)))
  else (w, Throw (invalid_selector "Document" (card_selector symbol))).

(** The callback of [managerState.instruments.forEach]. *)
Definition render_matching_card (instrument : InstrumentState) (index : nat) : M unit :=
  card ← querySelector_card (symbol instrument);
  match card with
  | Some card => renderInstrument card (VData instrument)
  | None => mret tt
  end.

(** The body of [updateAll] once [managerState] is a manager state. *)
Definition update_cards (managerState : ManagerState) : M unit :=
  forEach (instruments managerState) render_matching_card 0.

(** [updateAll(managerState)] for whatever the API call resolved to: on
    [null], and on a document without [instruments], the read of
    [managerState.instruments.forEach] throws.  A document that has
    [instruments] without having the shape of a manager state is, like a
    document with a [config], not followed by the model. *)
Definition updateAll (managerState : Value ManagerState) : M unit :=
  match managerState with
  | VData managerState => update_cards managerState
  | VJson JNull => throw (TypeError "Cannot read properties of null (reading 'instruments')")
  | VJson _ => throw (TypeError "Cannot read properties of undefined (reading 'forEach')")
  end.

(** The click handlers of [initGlobalControls]. *)
Definition start_all_click (reply : Reply ManagerState) : M unit :=
  try_catch
    (state ← API_startAll reply;
     updateAll state)
    (λ error, alert (exn_message error)).

Definition stop_all_click (reply : Reply ManagerState) : M unit :=
  try_catch
    (state ← API_stopAll reply;
     updateAll state)
    (λ error, alert (exn_message error)).

(** ** The page as a state machine

    One event is one run of a handler.  A handler that awaits a request is
    run in one step, with the reply of the network as part of the event. *)
Inductive Event : Type :=
  | AddStop (card : nat)
  | RemoveStop (card row : nat)
  | Submit (card : nat) (reply : Reply InstrumentState)
  | ClickStart (card : nat) (reply : Reply InstrumentState)
  | ClickStop (card : nat) (reply : Reply InstrumentState)
  | ClickClose (card : nat) (confirmed : bool) (reply : Reply InstrumentState)
  | ClickRefresh (card : nat) (reply : Reply InstrumentState)
  | ClickStartAll (reply : Reply ManagerState)
  | ClickStopAll (reply : Reply ManagerState).

(** The handler that an event runs. *)
Definition handler (e : Event) : M unit :=
  match e with
  | AddStop card => add_stop_click card
  | RemoveStop card row => remove_stop_click card row
  | Submit card reply => submit card reply
  | ClickStart card reply => start_click card reply
  | ClickStop card reply => stop_click card reply
  | ClickClose card confirmed reply => close_click card confirmed reply
  | ClickRefresh card reply => refresh_click card reply
  | ClickStartAll reply => start_all_click reply
  | ClickStopAll reply => stop_all_click reply
  end.

(** The page after a handler has run (an exception that leaves a handler is
    reported to the console and changes nothing further). *)
Definition step (w : World) (e : Event) : World := fst (handler e w).

(** The page after a sequence of events. *)
Definition run_events (events : list Event) (w : World) : World :=
  fold_left step events w.

(** ** Vocabulary of the properties *)

(** The page with the card at [card] replaced. *)
Definition set_card (card : nat) (c : Card) (w : World) : World :=
  with_cards (<[card := c]> (cards w)) w.

(** A take-profit row with both of its inputs written. *)
Definition write_tp_row (tp : TakeProfit) (r : TpRow) : TpRow :=
  with_tp_volume_input (set_value (num_to_string (tp_volume_percent tp)))
    (with_tp_offset_input (set_value (num_to_string (tp_offset_percent tp))) r).

(** The rows after the loop: each row that has a take-profit is written;
    the rows from the first one without are as they were. *)
Fixpoint write_tp_rows (rows : list TpRow) (tps : list TakeProfit) : list TpRow :=
  match rows, tps with
  | r :: rows', tp :: tps' => write_tp_row tp r :: write_tp_rows rows' tps'
  | _, _ => rows
  end.

(** The row that [renderStopLosses] creates for a stop-loss. *)
Definition stop_loss_row (sl : StopLoss) : StopLossRow :=
  createStopLossRow (Some (sl_offset_percent sl)) (Some (sl_volume_percent sl)).

(** The card when the render has thrown in the take-profit loop. *)
Definition partly_rendered (c : Card) (data : InstrumentState) : Card :=
  with_tp_rows (write_tp_rows (tp_rows c) (take_profits (config data)))
    (with_entry_amount_input (set_value (num_to_string (entry_amount (config data)))) c).

(** The card after a complete render, [entries] being the log array. *)
Definition rendered (c : Card) (data : InstrumentState) (entries : list LogEntry) : Card :=
  with_log_list_ul
    ((λ _, String.concat "" (map log_item (rev entries))) <$> log_list_ul c)
  (with_dca_table_tbody
    ((λ _, String.concat "" (map dca_order_row (dca_orders data))) <$> dca_table_tbody c)
  (with_open_orders_tbody
    ((λ _, String.concat "" (map order_row (open_orders data))) <$> open_orders_tbody c)
  (with_positions (toFixed2 (default num_zero (LONG (positions data))))
                  (toFixed2 (default num_zero (SHORT (positions data))))
  (with_status (if is_running data then "true" else "false")
               (running_text (is_running data)) (running_text (is_running data))
  (with_dca_quantity_input (set_value (template_text (quantity (tp1_dca (config data)))))
  (with_dca_offset_input
     (set_value (template_text (dca_offset_percent (tp1_dca (config data)))))
  (with_dca_enabled_checked (enabled (tp1_dca (config data)))
  (with_stop_loss_list (map stop_loss_row (stop_losses (config data)))
  (partly_rendered c data))))))))).

(** The array store after a complete render: the copy made by [slice], reversed. *)
Definition arrays_after (c : Card) (data : InstrumentState) (w : World)
    : list (list LogEntry) :=
  if log_list_ul c is Some _ then arrays w ++ [rev (arrays w !!! logs data)]
  else arrays w.

(** The [detail] property of the body of a response: [undefined] when the
    body is not JSON, is not an object, or has no such property. *)
Definition body_detail {T : Type} (response : Response T) : JsValue :=
  match json response with
  | Document (JObj fields) => own_property "detail" fields
  | _ => None
  end.

(** The request a call of [API_request] issues. *)
Definition issued (url : string) (options : Options) : Request :=
  {| url := url; method := default "GET" (opt_method options); body := opt_body options |}.

(** The payload read off a card. *)
Definition collected (c : Card) : ConfigPayload :=
  {| payload_symbol := data_symbol c;
     payload_entry_amount := parseFloat (entry_amount_input c);
     payload_take_profits :=
       map (λ row,
             {| label := data_label row;
                tp_offset_percent := parseFloat (tp_offset_input row);
                tp_volume_percent := parseFloat (tp_volume_input row) |})
           (tp_rows c);
     payload_stop_losses :=
       map (λ row,
             {| sl_offset_percent := parseFloat (sl_offset_input row);
                sl_volume_percent := parseFloat (sl_volume_input row) |})
           (stop_loss_list c);
     payload_tp1_dca :=
       {| enabled := dca_enabled_checked c;
          dca_offset_percent :=
            if is_empty (trim (dca_offset_input c)) then None
            else Some (parseFloat (trim (dca_offset_input c)));
          quantity :=
            if is_empty (trim (dca_quantity_input c)) then None
            else Some (parseFloat (trim (dca_quantity_input c))) |} |}.

(** The validation of [collectConfig]: DCA is on and a required field is blank. *)
Definition dca_incomplete (c : Card) : bool :=
  dca_enabled_checked c &&
  (is_empty (trim (dca_offset_input c)) || is_empty (trim (dca_quantity_input c))).

(** The state with its take-profit list replaced. *)
Definition with_take_profits (tps : list TakeProfit) (data : InstrumentState)
    : InstrumentState :=
  {| symbol := symbol data;
     config :=
       {| entry_amount := entry_amount (config data);
          take_profits := tps;
          stop_losses := stop_losses (config data);
          tp1_dca := tp1_dca (config data) |};
     is_running := is_running data;
     positions := positions data;
     open_orders := open_orders data;
     dca_orders := dca_orders data;
     logs := logs data |}.

(** The numbers of a config are finite: what JSON can carry. *)
Definition finite_config (cfg : InstrumentConfig) : Prop :=
  isFinite (entry_amount cfg) = true ∧
  Forall (λ tp, isFinite (tp_offset_percent tp) = true ∧
                isFinite (tp_volume_percent tp) = true) (take_profits cfg) ∧
  Forall (λ sl, isFinite (sl_offset_percent sl) = true ∧
                isFinite (sl_volume_percent sl) = true) (stop_losses cfg) ∧
  (∀ x, dca_offset_percent (tp1_dca cfg) = Some x → isFinite x = true) ∧
  (∀ x, quantity (tp1_dca cfg) = Some x → isFinite x = true).

(** The invariant of [tp1_dca]: when enabled, both of its numbers are there. *)
Definition dca_complete (cfg : InstrumentConfig) : Prop :=
  enabled (tp1_dca cfg) = true →
  is_Some (dca_offset_percent (tp1_dca cfg)) ∧ is_Some (quantity (tp1_dca cfg)).

(** The editable numbers of a take-profit. *)
Definition tp_numbers (tp : TakeProfit) : num * num :=
  (tp_offset_percent tp, tp_volume_percent tp).

(** [maintains I m Q]: run from a page where [I] holds, [m] ends (normally or
    by throwing) in a page where [I] holds, and a value it returns has [Q]. *)
Definition maintains {A : Type} (I : World → Prop) (m : M A) (Q : A → Prop) : Prop :=
  ∀ w : World, I w → I (fst (m w)) ∧ ∀ a : A, snd (m w) = Ok a → Q a.

(** The card shows at most 10 stop-loss rows. *)
Definition card_capped (c : Card) : Prop := length (stop_loss_list c) ≤ 10.

(** The config a request carries, if any, has at most 10 stop-losses. *)
Definition request_capped (request : Request) : Prop :=
  ∀ payload, body request = Some payload → length (payload_stop_losses payload) ≤ 10.

(** The state has at most 10 stop-losses. *)
Definition state_capped (data : InstrumentState) : Prop :=
  length (stop_losses (config data)) ≤ 10.

(** Every card shows at most 10 stop-loss rows, and every request issued so
    far carries at most 10 stop-losses. *)
Definition capped (w : World) : Prop :=
  Forall card_capped (cards w) ∧ Forall request_capped (requests w).

(** The document of the endpoint's type that a reply carries, if any. *)
Definition reply_data {T : Type} (reply : Reply T) : option T :=
  match reply with
  | Responded response => if json response is Data v then Some v else None
  | NetworkFailure _ => None
  end.

(** The instrument states that the reply of an event carries. *)
Definition event_states (e : Event) : list InstrumentState :=
  match e with
  | AddStop _ | RemoveStop _ _ => []
  | Submit _ reply | ClickStart _ reply | ClickStop _ reply
  | ClickClose _ _ reply | ClickRefresh _ reply =>
      if reply_data reply is Some data then [data] else []
  | ClickStartAll reply | ClickStopAll reply =>
      if reply_data reply is Some managerState then instruments managerState else []
  end.

(** The document is no object with an own property [name]: reading that
    property of it gives [undefined]. *)
Definition without (name : string) (j : Json) : Prop :=
  ∀ fields, j = JObj fields → has_own name fields = false.

(** The body of a response in 200-299 other than 204, when it is a document
    that has not the shape of the endpoint's type, has no property [name]. *)
Definition reply_shaped {T : Type} (name : string) (reply : Reply T) : Prop :=
  ∀ response j,
    reply = Responded response → ok response = true → status response ≠ 204%Z →
    json response = Document j → without name j.

(** The reply of the event carries a state of the shape its endpoint
    promises, or a document with no [config] (for one instrument) or no
    [instruments] (for all) at all: one that the render reads nothing of. *)
Definition event_shaped (e : Event) : Prop :=
  match e with
  | AddStop _ | RemoveStop _ _ => True
  | Submit _ reply | ClickStart _ reply | ClickStop _ reply
  | ClickClose _ _ reply | ClickRefresh _ reply => reply_shaped "config" reply
  | ClickStartAll reply | ClickStopAll reply => reply_shaped "instruments" reply
  end.

(** The last instrument of the list with the symbol of the card. *)
Fixpoint last_match (insts : list InstrumentState) (c : Card) : option InstrumentState :=
  match insts with
  | [] => None
  | s :: rest =>
      match last_match rest c with
      | Some s' => Some s'
      | None => if decide (symbol s = data_symbol c) then Some s else None
      end
  end.

(** The first card with the symbol, and its position. *)
Definition first_card (symbol : string) (cs : list Card) : option (nat * Card) :=
  list_find (λ c, data_symbol c = symbol) cs.

(** The instrument has a take-profit for each row of the first card with its
    symbol, if there is such a card: its render completes. *)
Definition fills (cs : list Card) (s : InstrumentState) : Prop :=
  match first_card (symbol s) cs with
  | Some (_, c) => length (tp_rows c) ≤ length (take_profits (config s))
  | None => True
  end.


(** The card [c] at position [i] of the cards [cs] once the instruments
    [done] were rendered, one after the other and each completely, the log
    arrays being those of [store]: the first card with a symbol shows the
    last of the instruments with that symbol; a card that is not the first
    with its symbol, or whose symbol no instrument has, is as it was. *)
Definition card_after (cs : list Card) (store : list (list LogEntry))
    (done : list InstrumentState) (i : nat) (c : Card) : Card :=
  if bool_decide (fst <$> first_card (data_symbol c) cs = Some i) then
    match last_match done c with
    | Some s => rendered c s (store !!! logs s)
    | None => c
    end
  else c.

(** ** Tabs

    The tab buttons of a card and its tab sections, with what [setupTabs]
    reads of them: the [data-target] of a button, the [data-tab] of a section
    and whether the class list holds [active]. *)

Record TabButton : Type := {
  data_target : string;
  button_active : bool;
}.

Record TabContent : Type := {
  data_tab : string;
  content_active : bool;
}.

Record Tabs : Type := {
  tab_buttons : list TabButton;
  tab_contents : list TabContent;
}.

(** [b.classList.remove("active")] and [b.classList.add("active")]. *)
Definition button_set_active (v : bool) (b : TabButton) : TabButton :=
  {| data_target := data_target b; button_active := v |}.

Definition content_set_active (v : bool) (s : TabContent) : TabContent :=
  {| data_tab := data_tab s; content_active := v |}.

Definition no_tab_section : Exn :=
  TypeError "Cannot read properties of null (reading 'classList')".

(** The selector that the click handler builds from a target. *)
Definition tab_selector (target : string) : string :=
  ".tab-content[data-tab=" +:+ dq +:+ target +:+ dq +:+ "]".

(** The click handler that [setupTabs] gives the button at [button]: every
    button loses [active], the clicked one gets it, every section loses
    [active], and then the section is looked up: for a safe target it is the
    first section whose [data-tab] is the target, and it gets [active];
    [querySelector] gives [null] when there is none. *)
Definition tab_click (button : nat) (t : Tabs) : Tabs * Result unit :=
  match tab_buttons t !! button with
  | None => (t, Throw (TypeError "Cannot read properties of null"))
  | Some clicked =>
      let buttons := button_set_active false <$> tab_buttons t in
      let buttons := alter (button_set_active true) button buttons in
      let target := data_target clicked in
      let sections := content_set_active false <$> tab_contents t in
      if selector_safe target then
        match list_find (λ s, data_tab s = target) sections with
        | None =>
            ({| tab_buttons := buttons; tab_contents := sections |}, Throw no_tab_section)
        | Some (found, _) =>
            ({| tab_buttons := buttons;
                tab_contents := alter (content_set_active true) found sections |}, Ok tt)
        end
      else
        ({| tab_buttons := buttons; tab_contents := sections |},
         Throw (invalid_selector "Element" (tab_selector target)))
  end.

(** ** Vocabulary of the further properties *)

(** [untouched get m]: running [m] leaves the part [get] of the page as it was. *)
Definition untouched {A X : Type} (get : World → X) (m : M A) : Prop :=
  ∀ w : World, get (fst (m w)) = get w.

(** Whether an optional element is there. *)
Definition present {A : Type} (o : option A) : bool :=
  if o is Some _ then true else false.

(** What identifies a card and is never written: its symbol, the labels of
    its take-profit rows, and which of the three list containers it has. *)
Definition card_identity (c : Card) : string * list string * (bool * bool * bool) :=
  (data_symbol c, data_label <$> tp_rows c,
   (present (open_orders_tbody c), present (dca_table_tbody c), present (log_list_ul c))).

Definition page_identity (w : World) : list (string * list string * (bool * bool * bool)) :=
  card_identity <$> cards w.

(** The request that a method of the API client issues. *)
Definition request_of (m : ApiMethod) : Request :=
  match m with
  | ListInstruments => {| url := "/api/instruments"; method := "GET"; body := None |}
  | UpdateConfig symbol payload =>
      {| url := "/api/instruments/" +:+ symbol +:+ "/config"; method := "POST";
         body := Some payload |}
  | Start symbol =>
      {| url := "/api/instruments/" +:+ symbol +:+ "/start"; method := "POST"; body := None |}
  | Stop symbol =>
      {| url := "/api/instruments/" +:+ symbol +:+ "/stop"; method := "POST"; body := None |}
  | Close symbol =>
      {| url := "/api/instruments/" +:+ symbol +:+ "/close"; method := "POST"; body := None |}
  | StartAll => {| url := "/api/instruments/start_all"; method := "POST"; body := None |}
  | StopAll => {| url := "/api/instruments/stop_all"; method := "POST"; body := None |}
  | RefreshInstrument symbol =>
      {| url := "/api/instruments/" +:+ symbol; method := "GET"; body := None |}
  end.

(** The API call that an event makes on the page [w], if it makes one: a
    submit calls only when the config is collected, a close only when
    confirmed, and add and remove never. *)
Definition event_call (e : Event) (w : World) : option ApiMethod :=
  match e with
  | AddStop _ | RemoveStop _ _ => None
  | Submit card _ =>
      c ← cards w !! card;
      if dca_incomplete c then None else Some (UpdateConfig (data_symbol c) (collected c))
  | ClickStart card _ => c ← cards w !! card; Some (Start (data_symbol c))
  | ClickStop card _ => c ← cards w !! card; Some (Stop (data_symbol c))
  | ClickClose card confirmed _ =>
      c ← cards w !! card; if confirmed then Some (Close (data_symbol c)) else None
  | ClickRefresh card _ => c ← cards w !! card; Some (RefreshInstrument (data_symbol c))
  | ClickStartAll _ => Some StartAll
  | ClickStopAll _ => Some StopAll
  end.

(** The card and the reply of an event that renders one instrument. *)
Definition instrument_event (e : Event) : option (nat * Reply InstrumentState) :=
  match e with
  | Submit card reply | ClickStart card reply | ClickStop card reply
  | ClickClose card _ reply | ClickRefresh card reply => Some (card, reply)
  | AddStop _ | RemoveStop _ _ | ClickStartAll _ | ClickStopAll _ => None
  end.

(** The alert that ends a successful event: only a submit has one. *)
Definition success_alert (e : Event) : list string :=
  match e with
  | Submit _ _ => ["Настройки обновлены"]
  | _ => []
  end.

(** The card an event refers to. *)
Definition event_card (e : Event) : option nat :=
  match e with
  | AddStop card | RemoveStop card _ => Some card
  | ClickStartAll _ | ClickStopAll _ => None
  | _ => fst <$> instrument_event e
  end.

(** The card an event refers to is on the page. *)
Definition event_on_page (e : Event) (w : World) : Prop :=
  ∀ card, event_card e = Some card → is_Some (cards w !! card).

(** The three status fields of a card show one and the same running flag. *)
Definition status_agrees (c : Card) : Prop :=
  ∃ running : bool,
    data_running c = (if running then "true" else "false") ∧
    status_indicator_text c = running_text running ∧
    status_text c = running_text running.

(** The message of the TypeError of a render given [null]. *)
Definition null_state_message : string :=
  "Cannot read properties of null (reading 'config')".

(** Every card of the page has the property [P]. *)
Definition every_card (P : Card → Prop) (w : World) : Prop := Forall P (cards w).

(** The message of the TypeError of [updateAll] given [null]. *)
Definition null_manager_message : string :=
  "Cannot read properties of null (reading 'instruments')".

(** The click on start-all or stop-all and the call it makes. *)
Definition global_event (e : Event) : option (ApiMethod * Reply ManagerState) :=
  match e with
  | ClickStartAll reply => Some (StartAll, reply)
  | ClickStopAll reply => Some (StopAll, reply)
  | _ => None
  end.

(** What [collectStopLosses] reads off a blank row. *)
Definition blank_stop_loss : StopLoss :=
  {| sl_offset_percent := parseFloat ""; sl_volume_percent := parseFloat "" |}.

End Dashboard.

Arguments ParseFailure {rt T} reason.
Arguments Document {rt T} j.
Arguments Data {rt T} v.
Arguments status {rt T} r.
Arguments statusText {rt T} r.
Arguments json {rt T} r.
Arguments NetworkFailure {rt T} reason.
Arguments Responded {rt T} response.
Arguments VJson {rt T} j.
Arguments VData {rt T} v.

(** ** A runtime to evaluate with

    The interface on the natural numbers, written in decimal as the engine
    writes them.  A text that is not a run of digits reads as NaN, so this
    runtime is the browser's only on inputs whose numbers are naturals; the
    concrete pages below use no others. *)

Inductive dnum : Type :=
  | DNaN
  | DNat (n : N).

Definition dnum_to_string (x : dnum) : string :=
  match x with
  | DNaN => "NaN"
  | DNat n => NilEmpty.string_of_uint (N.to_uint n)
  end.

Definition dnum_parse (s : string) : dnum :=
  match s with
  | "" => DNaN
  | _ =>
      match NilEmpty.uint_of_string s with
      | Some d => DNat (N.of_uint d)
      | None => DNaN
      end
  end.

Definition dnum_isFinite (x : dnum) : bool :=
  match x with DNaN => false | DNat _ => true end.

Definition dnum_truthy (x : dnum) : bool :=
  match x with DNaN | DNat 0%N => false | DNat _ => true end.

Definition dnum_toFixed2 (x : dnum) : string :=
  match x with
  | DNaN => "NaN"
  | DNat _ => dnum_to_string x +:+ ".00"
  end.

Definition dnum_sanitize (s : string) : string :=
  match dnum_parse s with
  | DNaN => ""
  | DNat _ => s
  end.

(** The blanks of ASCII: tab, line feed, vertical tab, form feed, carriage
    return and space. *)
Definition is_blank (c : ascii) : bool :=
  let n := nat_of_ascii c in
  ((9 <=? n)%nat && (n <=? 13)%nat) || (n =? 32)%nat.

Fixpoint trim_start (s : string) : string :=
  match s with
  | String c rest => if is_blank c then trim_start rest else s
  | "" => ""
  end.

Fixpoint trim_end (s : string) : string :=
  match s with
  | String c rest =>
      match trim_end rest with
      | "" => if is_blank c then "" else String c ""
      | kept => String c kept
      end
  | "" => ""
  end.

Definition ascii_trim (s : string) : string := trim_end (trim_start s).

Definition ascii_lower (c : ascii) : ascii :=
  let n := nat_of_ascii c in
  if ((65 <=? n)%nat && (n <=? 90)%nat) then ascii_of_nat (n + 32) else c.

Fixpoint ascii_toLowerCase (s : string) : string :=
  match s with
  | String c rest => String (ascii_lower c) (ascii_toLowerCase rest)
  | "" => ""
  end.

#[global] Instance decimal_runtime : JsRuntime := {|
  num := dnum;
  num_to_string := dnum_to_string;
  parseFloat := dnum_parse;
  isFinite := dnum_isFinite;
  num_truthy := dnum_truthy;
  num_zero := DNat 0;
  toFixed2 := dnum_toFixed2;
  sanitize_number := dnum_sanitize;
  trim := ascii_trim;
  toLowerCase := ascii_toLowerCase;
  date_toLocaleString := λ t, t;
|}.

(** No character of the string is a blank. *)
Fixpoint no_blank (s : string) : bool :=
  match s with
  | String c rest => negb (is_blank c) && no_blank rest
  | "" => true
  end.

(** ** Pages to evaluate on *)

(** A take-profit row as the page template writes it. *)
Definition tp_row_1 : TpRow :=
  {| data_label := "TP1"; tp_offset_input := "1"; tp_volume_input := "50" |}.

(** A stopped card with no stop-loss rows. *)
Definition card_of (symbol : string) (rows : list TpRow) : Card :=
  {| data_symbol := symbol; entry_amount_input := "100"; tp_rows := rows;
     stop_loss_list := []; dca_enabled_checked := false;
     dca_offset_input := ""; dca_quantity_input := "";
     data_running := "false"; status_indicator_text := "Остановлен";
     status_text := "Остановлен"; position_LONG_text := "0.00";
     position_SHORT_text := "0.00"; open_orders_tbody := Some "";
     dca_table_tbody := Some ""; log_list_ul := Some "" |}.

(** Two log entries, the older first. *)
Definition log_1 : LogEntry := {| timestamp := "t1"; level := "INFO"; message := "started" |}.
Definition log_2 : LogEntry := {| timestamp := "t2"; level := "WARN"; message := "filled" |}.

(** A page with the given cards and one log array, at reference 0. *)
Definition page_of (cs : list Card) : World :=
  {| cards := cs; alerts := []; requests := []; arrays := [[log_1; log_2]] |}.

(** Take-profits and stop-losses with natural numbers. *)
Definition take_profit (offset volume : N) : TakeProfit :=
  {| label := "TP"; tp_offset_percent := DNat offset; tp_volume_percent := DNat volume |}.

Definition stop_loss (offset volume : N) : StopLoss :=
  {| sl_offset_percent := DNat offset; sl_volume_percent := DNat volume |}.

(** A running instrument with DCA off. *)
Definition state_of (name : string) (tps : list TakeProfit) (sls : list StopLoss)
    : InstrumentState :=
  {| symbol := name;
     config := {| entry_amount := DNat 250; take_profits := tps; stop_losses := sls;
                  tp1_dca := {| enabled := false; dca_offset_percent := None;
                                quantity := None |} |};
     is_running := true;
     positions := {| LONG := Some (DNat 3); SHORT := None |};
     open_orders := []; dca_orders := []; logs := 0 |}.

(** The reply that carries a response. *)
Definition replied {T : Type} (code : Z) (text : string) (parsed : Parsed T) : Reply T :=
  Responded {| status := code; statusText := text; json := parsed |}.

(** A page with one card, which has one take-profit row. *)
Definition btc_page : World := page_of [card_of "BTCUSDT" [tp_row_1]].

(** A start answered by a state with 11 stop-losses, then a submit. *)
Definition eleven_stops : InstrumentState :=
  state_of "BTCUSDT" [take_profit 1 50] (replicate 11 (stop_loss 1 5)).

Definition eleven_stops_events : list Event :=
  [ClickStart 0 (replied 200 "OK" (Data eleven_stops));
   Submit 0 (NetworkFailure "Failed to fetch")].

(** A submit answered by a state within the cap, after three clicks on add
    and one on remove. *)
Definition two_stops : InstrumentState :=
  state_of "BTCUSDT" [take_profit 1 50] [stop_loss 1 5; stop_loss 2 10].

Definition capped_events : list Event :=
  [AddStop 0; AddStop 0; AddStop 0; RemoveStop 0 1;
   ClickStart 0 (replied 200 "OK" (Data two_stops));
   Submit 0 (replied 200 "OK" (Data two_stops))].

(** An error response whose [detail] is the empty string. *)
Definition empty_detail : Response InstrumentState :=
  {| status := 400; statusText := "Bad Request";
     json := Document (JObj [("detail", JStr "")]) |}.

(** An error response whose [detail] is the string [X]. *)
Definition detail_X : Response InstrumentState :=
  {| status := 422; statusText := "Unprocessable Entity";
     json := Document (JObj [("detail", JStr "X")]) |}.

(** An error response whose [detail] is an object with a member [toString]. *)
Definition detail_toString : Response InstrumentState :=
  {| status := 422; statusText := "Unprocessable Entity";
     json := Document (JObj [("detail", JObj [("toString", JNull)])]) |}.

(** A response with no content: its body is not JSON. *)
Definition no_content : Response InstrumentState :=
  {| status := 204; statusText := "No Content";
     json := ParseFailure "Unexpected end of JSON input" |}.

(** A card with DCA checked and a blank offset. *)
Definition blank_dca_card : Card :=
  with_dca_quantity_input "3" (with_dca_offset_input "  "
    (with_dca_enabled_checked true (card_of "BTCUSDT" [tp_row_1]))).

(** Two take-profits for a card with one row; none for a card with one row. *)
Definition two_take_profits : InstrumentState :=
  state_of "BTCUSDT" [take_profit 1 50; take_profit 2 50] [stop_loss 1 5].

Definition no_take_profits : InstrumentState := state_of "BTCUSDT" [] [stop_loss 1 5].

(** One take-profit, as many as the card has rows. *)
Definition one_take_profit : InstrumentState :=
  state_of "BTCUSDT" [take_profit 4 60] [stop_loss 1 5].

(** Two cards; the response renders the first with no take-profit for its row. *)
Definition two_cards : World :=
  page_of [card_of "BTCUSDT" [tp_row_1]; card_of "ETHUSDT" []].



(** The card of [btc_page]. *)
Definition btc_card : Card := card_of "BTCUSDT" [tp_row_1].

(** The tabs of a card: config is shown. *)
Definition three_tabs : Tabs :=
  {| tab_buttons :=
       [{| data_target := "config"; button_active := true |};
        {| data_target := "status"; button_active := false |};
        {| data_target := "logs"; button_active := false |}];
     tab_contents :=
       [{| data_tab := "config"; content_active := true |};
        {| data_tab := "status"; content_active := false |};
        {| data_tab := "logs"; content_active := false |}] |}.

(** Tabs whose second button has no section. *)
Definition orphan_tabs : Tabs :=
  {| tab_buttons :=
       [{| data_target := "config"; button_active := true |};
        {| data_target := "history"; button_active := false |}];
     tab_contents := [{| data_tab := "config"; content_active := true |}] |}.

(** A response that carries [two_stops]; one that carries no take-profit. *)
Definition ok_two_stops : Response InstrumentState :=
  {| status := 200; statusText := "OK"; json := Data two_stops |}.

Definition ok_no_take_profits : Response InstrumentState :=
  {| status := 200; statusText := "OK"; json := Data no_take_profits |}.

(** An error response whose body is [null]. *)
Definition null_body : Response InstrumentState :=
  {| status := 500; statusText := "Internal Server Error"; json := Document JNull |}.

(** A response with no content to a click on start-all. *)
Definition no_content_all : Response ManagerState :=
  {| status := 204; statusText := "No Content";
     json := ParseFailure "Unexpected end of JSON input" |}.

(** [request_capped], decided. *)
Definition request_cappedb (request : Request) : bool :=
  match body request with
  | Some payload => length (payload_stop_losses payload) <=? 10
  | None => true
  end.

(** Closes [l = r] by evaluating both sides in the virtual machine. *)
Ltac evaluate :=
  lazymatch goal with
  | |- @eq ?T ?l ?r => vm_cast_no_check (@eq_refl T r)
  end.

(** * Properties *)

Section Properties.

Context {rt : JsRuntime}.

(** ** Running monadic code *)

Lemma run_bind {A B : Type} (m : M A) (f : A → M B) (w : World) :
  (m ≫= f) w =
  match m w with
  | (w', Ok a) => f a w'
  | (w', Throw e) => (w', Throw e)
  end.
Proof. reflexivity. Qed.

Lemma run_ret {A : Type} (a : A) (w : World) : (mret a : M A) w = (w, Ok a).
Proof. reflexivity. Qed.

Lemma the_card_run (card : nat) (c : Card) (w : World) :
  cards w !! card = Some c → the_card card w = (w, Ok c).
Proof. intros H. unfold the_card. now rewrite H. Qed.

Lemma querySelector_card_world (symbol : string) (w : World) :
  fst (querySelector_card symbol w) = w.
Proof. unfold querySelector_card. now destruct (selector_safe symbol). Qed.

Lemma update_card_run (card : nat) (f : Card → Card) (c : Card) (w : World) :
  cards w !! card = Some c → update_card card f w = (set_card card (f c) w, Ok tt).
Proof.
  intros H. unfold update_card, set_card. f_equal. f_equal.
  apply list_eq. intros i. rewrite list_lookup_alter.
  destruct (decide (card = i)) as [->|Hne].
  - rewrite H. simpl. symmetry. apply list_lookup_insert_eq.
    now apply lookup_lt_Some in H.
  - now rewrite list_lookup_insert_ne.
Qed.

Lemma set_card_lookup (card : nat) (c c' : Card) (w : World) :
  cards w !! card = Some c → cards (set_card card c' w) !! card = Some c'.
Proof.
  intros H. simpl. apply list_lookup_insert_eq. now apply lookup_lt_Some in H.
Qed.


Lemma set_card_twice (card : nat) (c1 c2 : Card) (w : World) :
  set_card card c2 (set_card card c1 w) = set_card card c2 w.
Proof. unfold set_card. simpl. now rewrite list_insert_insert_eq. Qed.

Lemma set_card_same (card : nat) (c : Card) (w : World) :
  cards w !! card = Some c → set_card card c w = w.
Proof.
  intros H. unfold set_card. rewrite list_insert_id by done. now destruct w.
Qed.

(** ** What a render writes *)

Lemma with_tp_rows_id (c : Card) : with_tp_rows (tp_rows c) c = c.
Proof. now destruct c. Qed.

Lemma write_tp_rows_nil (rows : list TpRow) : write_tp_rows rows [] = rows.
Proof. now destruct rows. Qed.


Lemma update_tp_row_run (card : nat) (f : TpRow → TpRow) (c : Card) (w : World)
    (pre todo : list TpRow) (r : TpRow) :
  cards w !! card = Some c → tp_rows c = pre ++ r :: todo →
  update_tp_row card (length pre) f w =
  (set_card card (with_tp_rows (pre ++ f r :: todo) c) w, Ok tt).
Proof.
  intros Hc Hrows. unfold update_tp_row.
  rewrite (update_card_run _ _ c) by done. rewrite Hrows.
  rewrite (alter_app_r_alt f pre (r :: todo) (length pre)) by lia.
  now rewrite Nat.sub_diag.
Qed.

Lemma render_tp_row_run (card : nat) (data : InstrumentState) (c : Card) (w : World)
    (pre todo : list TpRow) (r : TpRow) (tp : TakeProfit) :
  cards w !! card = Some c → tp_rows c = pre ++ r :: todo →
  take_profits (config data) !! length pre = Some tp →
  render_tp_row card data (length pre) (length pre) w =
  (set_card card (with_tp_rows (pre ++ write_tp_row tp r :: todo) c) w, Ok tt).
Proof.
  intros Hc Hrows Htp. unfold render_tp_row. rewrite Htp, run_bind.
  rewrite (update_tp_row_run _ _ c _ pre todo r) by done.
  rewrite (update_tp_row_run _ _
             (with_tp_rows (pre ++ with_tp_offset_input
                (set_value (num_to_string (tp_offset_percent tp))) r :: todo) c)
             _ pre todo
             (with_tp_offset_input (set_value (num_to_string (tp_offset_percent tp))) r)).
  - now rewrite set_card_twice.
  - now apply (set_card_lookup _ c).
  - reflexivity.
Qed.

Lemma tp_loop_run (card : nat) (data : InstrumentState) (todo : list TpRow) :
  ∀ (pre : list TpRow) (c : Card) (w : World),
  cards w !! card = Some c → tp_rows c = pre ++ todo →
  forEach (seq (length pre) (length todo)) (render_tp_row card data) (length pre) w =
  (set_card card
     (with_tp_rows
        (pre ++ write_tp_rows todo (drop (length pre) (take_profits (config data)))) c) w,
   if (length todo <=? length (drop (length pre) (take_profits (config data))))%nat
   then Ok tt else Throw undefined_take_profit).
Proof.
  induction todo as [|r todo IH]; intros pre c w Hc Hrows.
  - simpl. rewrite <- Hrows, with_tp_rows_id, set_card_same by done. reflexivity.
  - cbn [length seq forEach]. rewrite run_bind.
    destruct (take_profits (config data) !! length pre) as [tp|] eqn:Htp.
    + rewrite (drop_S _ tp) by done.
      rewrite (render_tp_row_run _ _ c _ pre todo r tp) by done.
      set (c2 := with_tp_rows (pre ++ write_tp_row tp r :: todo) c).
      specialize (IH (pre ++ [write_tp_row tp r]) c2 (set_card card c2 w)).
      rewrite length_app in IH. simpl in IH. rewrite Nat.add_1_r in IH.
      rewrite IH.
      * rewrite set_card_twice. cbn [write_tp_rows length].
        rewrite <- app_assoc. reflexivity.
      * now apply (set_card_lookup _ c).
      * simpl. now rewrite <- app_assoc.
    + unfold render_tp_row. rewrite Htp.
      apply lookup_ge_None in Htp. rewrite drop_ge by lia.
      rewrite write_tp_rows_nil, <- Hrows, with_tp_rows_id, set_card_same by done.
      reflexivity.
Qed.

Lemma stop_loss_loop_run (container : nat) (sls : list StopLoss) :
  ∀ (index : nat) (c : Card) (w : World),
  cards w !! container = Some c →
  forEach sls (λ sl _, appendChild container (stop_loss_row sl)) index w =
  (set_card container
     (with_stop_loss_list (stop_loss_list c ++ map stop_loss_row sls) c) w, Ok tt).
Proof.
  induction sls as [|sl sls IH]; intros index c w Hc.
  - simpl. rewrite app_nil_r.
    replace (with_stop_loss_list (stop_loss_list c) c) with c by now destruct c.
    now rewrite set_card_same.
  - cbn [forEach]. rewrite run_bind. unfold appendChild at 1.
    rewrite (update_card_run _ _ c) by done.
    erewrite IH by now apply (set_card_lookup _ c).
    rewrite set_card_twice. simpl. now rewrite <- app_assoc.
Qed.

Lemma renderStopLosses_run (container : nat) (sls : list StopLoss) (c : Card) (w : World) :
  cards w !! container = Some c →
  renderStopLosses container sls w =
  (set_card container (with_stop_loss_list (map stop_loss_row sls) c) w, Ok tt).
Proof.
  intros Hc. unfold renderStopLosses. rewrite run_bind.
  rewrite (update_card_run _ _ c) by done.
  change (λ (sl : StopLoss) (_ : nat), appendChild container
            (createStopLossRow (Some (sl_offset_percent sl)) (Some (sl_volume_percent sl))))
    with (λ (sl : StopLoss) (_ : nat), appendChild container (stop_loss_row sl)).
  erewrite stop_loss_loop_run by now apply (set_card_lookup _ c).
  now rewrite set_card_twice.
Qed.

Lemma log_block_run (card : nat) (data : InstrumentState) (c : Card) (w : World) :
  cards w !! card = Some c →
  (copy ← array_slice (logs data);
   reversed ← array_reverse copy;
   entries ← array_entries reversed;
   update_card card (with_log_list_ul (Some (String.concat "" (map log_item entries))))) w =
  (with_arrays (arrays w ++ [rev (arrays w !!! logs data)])
     (set_card card
        (with_log_list_ul
           (Some (String.concat "" (map log_item (rev (arrays w !!! logs data))))) c) w),
   Ok tt).
Proof.
  intros Hc. rewrite run_bind. unfold array_slice at 1. cbv beta iota.
  rewrite run_bind. unfold array_reverse at 1. cbv beta iota.
  rewrite run_bind. unfold array_entries at 1. cbv beta iota.
  cbn [arrays with_arrays].
  assert (Hrev : alter (@rev LogEntry) (length (arrays w)) (arrays w ++ [arrays w !!! logs data])
                 = arrays w ++ [rev (arrays w !!! logs data)]).
  { rewrite alter_app_r_alt by lia. now rewrite Nat.sub_diag. }
  rewrite Hrev.
  assert (Hget : (arrays w ++ [rev (arrays w !!! logs data)]) !!! length (arrays w)
                 = rev (arrays w !!! logs data)).
  { apply list_lookup_total_correct. rewrite lookup_app_r by lia.
    now rewrite Nat.sub_diag. }
  rewrite Hget.
  rewrite (update_card_run _ _ c) by done. reflexivity.
Qed.

Lemma render_state_short (card : nat) (data : InstrumentState) (c : Card) (w : World) :
  cards w !! card = Some c →
  length (take_profits (config data)) < length (tp_rows c) →
  render_state card data w =
  (set_card card (partly_rendered c data) w, Throw undefined_take_profit).
Proof.
  intros Hc Hlen. unfold render_state.
  rewrite run_bind, (the_card_run _ c) by done.
  rewrite run_bind, (update_card_run _ _ c) by done.
  rewrite run_bind.
  rewrite (tp_loop_run card data (tp_rows c) []
             (with_entry_amount_input
                (set_value (num_to_string (entry_amount (config data)))) c));
    [ | now apply (set_card_lookup _ c) | reflexivity ].
  cbn [length app]. rewrite !drop_0, set_card_twice.
  destruct (Nat.leb_spec (length (tp_rows c)) (length (take_profits (config data))));
    [lia | reflexivity].
Qed.

Lemma render_state_complete (card : nat) (data : InstrumentState) (c : Card) (w : World) :
  cards w !! card = Some c →
  length (tp_rows c) ≤ length (take_profits (config data)) →
  render_state card data w =
  (with_arrays (arrays_after c data w)
     (set_card card (rendered c data (arrays w !!! logs data)) w), Ok tt).
Proof.
  intros Hc Hlen. unfold render_state.
  rewrite run_bind, (the_card_run _ c) by done.
  rewrite run_bind, (update_card_run _ _ c) by done.
  rewrite run_bind.
  rewrite (tp_loop_run card data (tp_rows c) []
             (with_entry_amount_input
                (set_value (num_to_string (entry_amount (config data)))) c));
    [ | now apply (set_card_lookup _ c) | reflexivity ].
  cbn [length app]. rewrite !drop_0, set_card_twice.
  destruct (Nat.leb_spec (length (tp_rows c)) (length (take_profits (config data))));
    [ | lia ].
  fold (partly_rendered c data).
  rewrite run_bind.
  erewrite renderStopLosses_run by now apply (set_card_lookup _ c).
  rewrite set_card_twice.
  do 5 (rewrite run_bind;
        erewrite update_card_run by (now apply (set_card_lookup _ c));
        rewrite set_card_twice).
  unfold arrays_after, rendered.
  destruct (open_orders_tbody c) as [oo|] eqn:Hoo;
    destruct (dca_table_tbody c) as [dt|] eqn:Hdt;
    destruct (log_list_ul c) as [ll|] eqn:Hll;
    repeat (rewrite run_bind;
            first [ erewrite update_card_run by (now apply (set_card_lookup _ c));
                    rewrite set_card_twice
                  | rewrite run_ret ]);
    first [ erewrite log_block_run by (now apply (set_card_lookup _ c));
            rewrite set_card_twice
          | rewrite run_ret
          | erewrite update_card_run by (now apply (set_card_lookup _ c));
            rewrite set_card_twice ];
    cbn [fmap option_fmap option_map arrays set_card with_cards with_arrays];
    unfold set_card, with_arrays, with_cards; cbn [cards alerts requests arrays];
    repeat f_equal; destruct c; cbn in *; subst; reflexivity.
Qed.

(** ** API client *)

Lemma API_call_request {T : Type} (m : ApiMethod) (reply : Reply T) :
  ∃ url options, API_call m reply = API_request url options reply.
Proof. destruct m; simpl; eauto. Qed.

Lemma API_request_no_content {T : Type} (url : string) (options : Options)
    (response : Response T) (w : World) :
  status response = 204%Z →
  snd (API_request url options (Responded response) w) = Ok (VJson JNull).
Proof.
  intros H. unfold API_request. rewrite run_bind. simpl.
  unfold ok. rewrite H. reflexivity.
Qed.

Lemma API_request_rejects {T : Type} (url : string) (options : Options)
    (response : Response T) (w : World) :
  ok response = false → json response ≠ Document JNull →
  snd (API_request url options (Responded response) w) =
  Throw (thrown (new_Error
           (or_else (or_else (body_detail response) (Some (JStr (statusText response))))
                    (Some (JStr fallback_message))))).
Proof.
  intros Hok Hnull. unfold API_request. rewrite run_bind. simpl. rewrite Hok. simpl.
  unfold body_detail, try_catch, response_json.
  destruct (json response) as [reason|j|v]; simpl; try reflexivity.
  destruct j; simpl; try reflexivity. congruence.
Qed.

(** C4.  Whatever the method of the API client, a response with status 204
    makes the call resolve to [null]; the call does not throw. *)
Theorem no_content_resolves_to_null {T : Type} (m : ApiMethod) (response : Response T)
    (w : World) :
  status response = 204%Z →
  snd (API_call m (Responded response) w) = Ok (VJson JNull).
Proof.
  intros H. destruct (API_call_request m (Responded response)) as (url & options & ->).
  now apply API_request_no_content.
Qed.

(** C2, amended.  On a response outside 200-299 whose body is not the
    document [null], every method of the API client rejects.  When the
    [detail] property of the body is truthy, it rejects with an [Error] whose
    message is that property converted to a string (so exactly [X] for a
    non-empty string [X]), or, when the conversion throws, with what the
    conversion throws: for an object that is the TypeError of an own property
    [toString], and the message is ["[object Object]"] without one.
    Otherwise it rejects with an [Error] whose message is the status text
    when that is not empty, and the fallback when it is. *)
Theorem rejection_message_priority {T : Type} (m : ApiMethod) (response : Response T)
    (w : World) :
  ok response = false → json response ≠ Document JNull →
  (∀ X : string, body_detail response = Some (JStr X) → X ≠ "" →
     snd (API_call m (Responded response) w) = Throw (Error X)) ∧
  (truthy (body_detail response) = true →
     ∃ j : Json, body_detail response = Some j ∧
       snd (API_call m (Responded response) w) =
       match ToString j with
       | Ok msg => Throw (Error msg)
       | Throw e => Throw e
       end) ∧
  (∀ fields, body_detail response = Some (JObj fields) →
     snd (API_call m (Responded response) w) =
     if has_own "toString" fields then Throw not_primitive
     else Throw (Error "[object Object]")) ∧
  (truthy (body_detail response) = false → statusText response ≠ "" →
     snd (API_call m (Responded response) w) = Throw (Error (statusText response))) ∧
  (truthy (body_detail response) = false → statusText response = "" →
     snd (API_call m (Responded response) w) = Throw (Error fallback_message)).
Proof.
  intros Hok Hnull.
  destruct (API_call_request m (Responded response)) as (url & options & ->).
  rewrite API_request_rejects by done.
  unfold or_else.
  destruct (truthy (body_detail response)) eqn:Hd.
  - rewrite Hd. destruct (body_detail response) as [j|] eqn:Hj; [|discriminate].
    repeat split; try discriminate.
    + now intros X [= ->] _.
    + intros _. exists j. split; [reflexivity|]. simpl. now destruct (ToString j).
    + intros fields [= ->]. simpl. now destruct (has_own "toString" fields).
  - assert (Hstr : ∀ X, body_detail response = Some (JStr X) → X ≠ "" → False).
    { intros X HX Hne. rewrite HX in Hd. simpl in Hd.
      apply negb_false_iff, String.eqb_eq in Hd. congruence. }
    assert (Hobj : ∀ fields, body_detail response ≠ Some (JObj fields)).
    { intros fields HX. rewrite HX in Hd. discriminate. }
    split; [intros X HX Hne; destruct (Hstr X HX Hne)|].
    split; [discriminate|].
    split; [intros fields HX; destruct (Hobj fields HX)|].
    destruct (String.eqb (statusText response) "") eqn:Hs; simpl; rewrite Hs; simpl.
    + apply String.eqb_eq in Hs. split; [congruence|reflexivity].
    + apply String.eqb_neq in Hs. split; [reflexivity|congruence].
Qed.

(** An API call issues its request and touches nothing else of the page. *)
Lemma API_request_world {T : Type} (url : string) (options : Options) (reply : Reply T)
    (w : World) :
  fst (API_request url options reply w) =
  with_requests (requests w ++ [issued url options]) w.
Proof.
  unfold API_request. rewrite run_bind. destruct reply as [reason|response]; simpl.
  - reflexivity.
  - destruct (ok response); simpl.
    + destruct (status response =? 204)%Z; simpl; [reflexivity|].
      unfold response_json. now destruct (json response).
    + unfold try_catch, response_json.
      destruct (json response) as [reason|j|v]; simpl; try reflexivity.
      destruct j; reflexivity.
Qed.

(** ** Stop-loss rows *)

Lemma add_stop_click_below (card : nat) (c : Card) (w : World) :
  cards w !! card = Some c → length (stop_loss_list c) < 10 →
  add_stop_click card w =
  (set_card card
     (with_stop_loss_list (stop_loss_list c ++ [createStopLossRow None None]) c) w,
   Ok tt).
Proof.
  intros Hc Hlen. unfold add_stop_click. rewrite run_bind, (the_card_run _ c) by done.
  destruct (Nat.leb_spec 10 (length (stop_loss_list c))); [lia|].
  unfold appendChild. now rewrite (update_card_run _ _ c).
Qed.

Lemma add_stop_click_full (card : nat) (c : Card) (w : World) :
  cards w !! card = Some c → 10 ≤ length (stop_loss_list c) →
  add_stop_click card w = (with_alerts (alerts w ++ [stop_loss_limit_message]) w, Ok tt).
Proof.
  intros Hc Hlen. unfold add_stop_click. rewrite run_bind, (the_card_run _ c) by done.
  destruct (Nat.leb_spec 10 (length (stop_loss_list c))); [reflexivity|lia].
Qed.

Lemma add_stop_clicks_count (card n : nat) :
  ∀ (c : Card) (w : World),
  cards w !! card = Some c → length (stop_loss_list c) ≤ 10 →
  ∃ c' : Card,
    cards (run_events (replicate n (AddStop card)) w) !! card = Some c' ∧
    length (stop_loss_list c') = (length (stop_loss_list c) + n) `min` 10.
Proof.
  induction n as [|n IH]; intros c w Hc Hlen.
  - exists c. simpl. split; [done|lia].
  - cbn [replicate run_events fold_left]. unfold step at 2. cbn [handler].
    destruct (Nat.lt_ge_cases (length (stop_loss_list c)) 10) as [Hlt|Hge].
    + rewrite (add_stop_click_below _ c) by done. cbn [fst].
      set (c1 := with_stop_loss_list (stop_loss_list c ++ [createStopLossRow None None]) c).
      destruct (IH c1 (set_card card c1 w)) as (c' & Hc' & Hn).
      * now apply (set_card_lookup _ c).
      * simpl. rewrite length_app. simpl. lia.
      * exists c'. split; [exact Hc'|].
        rewrite Hn. simpl. rewrite length_app. simpl. lia.
    + rewrite (add_stop_click_full _ c) by done. cbn [fst].
      destruct (IH c (with_alerts (alerts w ++ [stop_loss_limit_message]) w))
        as (c' & Hc' & Hn); [done|done|].
      exists c'. split; [exact Hc'|]. lia.
Qed.

(** C6.  A click on the add-stop control appends exactly one row when the
    container has fewer than 10 rows, and otherwise leaves the container as
    it is and shows an alert; so from an empty container, after any number
    [n] of clicks the container has [min n 10] rows, never more than 10. *)
Theorem add_stop_is_capped (card : nat) (c : Card) (w : World) :
  cards w !! card = Some c →
  (length (stop_loss_list c) < 10 →
     add_stop_click card w =
     (set_card card
        (with_stop_loss_list (stop_loss_list c ++ [createStopLossRow None None]) c) w,
      Ok tt)) ∧
  (10 ≤ length (stop_loss_list c) →
     add_stop_click card w =
     (with_alerts (alerts w ++ [stop_loss_limit_message]) w, Ok tt)) ∧
  (stop_loss_list c = [] →
     ∀ n : nat, ∃ c' : Card,
       cards (run_events (replicate n (AddStop card)) w) !! card = Some c' ∧
       length (stop_loss_list c') = n `min` 10 ∧
       length (stop_loss_list c') ≤ 10).
Proof.
  intros Hc. split; [|split].
  - now apply add_stop_click_below.
  - now apply add_stop_click_full.
  - intros Hnil n.
    destruct (add_stop_clicks_count card n c w Hc) as (c' & Hc' & Hn).
    + rewrite Hnil. simpl. lia.
    + exists c'. rewrite Hnil in Hn. simpl in Hn. repeat split; [done|lia|lia].
Qed.

(** ** Config collection and submission *)

Lemma collectConfig_run (card : nat) (c : Card) (w : World) :
  cards w !! card = Some c →
  collectConfig card w =
  (w, if dca_incomplete c then Throw (Error dca_required_message) else Ok (collected c)).
Proof.
  intros Hc. unfold collectConfig, collectStopLosses.
  rewrite run_bind, (the_card_run _ c) by done.
  rewrite !run_bind, (the_card_run _ c) by done. rewrite run_ret.
  unfold dca_incomplete. now destruct (_ && _).
Qed.

Lemma submit_collect_fails (card : nat) (c : Card) (reply : Reply InstrumentState)
    (w : World) :
  cards w !! card = Some c → dca_incomplete c = true →
  submit card reply w = (with_alerts (alerts w ++ [dca_required_message]) w, Ok tt).
Proof.
  intros Hc Hd. unfold submit. rewrite run_bind, (the_card_run _ c) by done.
  unfold try_catch. rewrite run_bind, (collectConfig_run _ c) by done.
  now rewrite Hd.
Qed.

Lemma submit_request_fails (card : nat) (c : Card) (reply : Reply InstrumentState)
    (w : World) (e : Exn) :
  cards w !! card = Some c → dca_incomplete c = false →
  snd (API_updateConfig (data_symbol c) (collected c) reply w) = Throw e →
  submit card reply w =
  alert (exn_message e) (fst (API_updateConfig (data_symbol c) (collected c) reply w)).
Proof.
  intros Hc Hd He. unfold submit. rewrite run_bind, (the_card_run _ c) by done.
  unfold try_catch. rewrite run_bind, (collectConfig_run _ c) by done.
  rewrite Hd, run_bind.
  destruct (API_updateConfig (data_symbol c) (collected c) reply w) as [w1 r].
  simpl in He. now subst r.
Qed.

(** C3.  When the DCA checkbox is checked and the DCA offset or the DCA
    quantity is blank after trimming, [collectConfig] throws the validation
    error, and the submit handler ends with that alert and without having
    issued any request: [updateConfig] is not called. *)
Theorem blank_dca_throws_before_request (card : nat) (c : Card)
    (reply : Reply InstrumentState) (w : World) :
  cards w !! card = Some c → dca_enabled_checked c = true →
  (trim (dca_offset_input c) = "" ∨ trim (dca_quantity_input c) = "") →
  collectConfig card w = (w, Throw (Error dca_required_message)) ∧
  submit card reply w = (with_alerts (alerts w ++ [dca_required_message]) w, Ok tt) ∧
  requests (fst (submit card reply w)) = requests w.
Proof.
  intros Hc Hen Hblank.
  assert (Hd : dca_incomplete c = true).
  { unfold dca_incomplete, is_empty. rewrite Hen.
    destruct Hblank as [-> | ->]; simpl; [reflexivity|].
    now rewrite orb_true_r. }
  split; [|split].
  - rewrite (collectConfig_run _ c) by done. now rewrite Hd.
  - now apply (submit_collect_fails _ c).
  - now rewrite (submit_collect_fails _ c).
Qed.

(** C5.  When [collectConfig] throws, or the [updateConfig] request rejects,
    the submit handler shows the message of the error in an alert and renders
    nothing: every card of the page, and the array store, are as they were
    before the submit. *)
Theorem failed_submit_renders_nothing (card : nat) (c : Card)
    (reply : Reply InstrumentState) (w : World) (e : Exn) :
  cards w !! card = Some c →
  (snd (collectConfig card w) = Throw e ∨
   ∃ payload : ConfigPayload,
     snd (collectConfig card w) = Ok payload ∧
     snd (API_updateConfig (data_symbol c) payload reply w) = Throw e) →
  snd (submit card reply w) = Ok tt ∧
  cards (fst (submit card reply w)) = cards w ∧
  arrays (fst (submit card reply w)) = arrays w ∧
  alerts (fst (submit card reply w)) = alerts w ++ [exn_message e].
Proof.
  intros Hc H. rewrite (collectConfig_run _ c) in H by done. simpl in H.
  destruct (dca_incomplete c) eqn:Hd.
  - destruct H as [[= <-] | (payload & [=] & _)].
    now rewrite (submit_collect_fails _ c).
  - destruct H as [[=] | (payload & [= <-] & He)].
    rewrite (submit_request_fails _ c _ _ e) by done.
    unfold API_updateConfig. rewrite API_request_world. now simpl.
Qed.

(** ** Render *)

Lemma write_tp_rows_app (rows : list TpRow) :
  ∀ kept extra : list TakeProfit,
  length rows ≤ length kept →
  write_tp_rows rows (kept ++ extra) = write_tp_rows rows kept.
Proof.
  induction rows as [|r rows IH]; intros [|tp kept] extra Hlen; simpl in *;
    try reflexivity; try lia.
  f_equal. apply IH. lia.
Qed.

(** C10.  On a card with more take-profit rows than the state has
    take-profits, [renderInstrument] throws the TypeError of reading
    [offset_percent] of [undefined], with the entry amount input already
    overwritten (and the rows that do have a take-profit written): the card
    is left partly rendered.  Conversely, take-profits beyond the number of
    rows are ignored: the render is the same as without them. *)
Theorem render_is_partial_in_take_profits (card : nat) (c : Card)
    (data : InstrumentState) (w : World) :
  cards w !! card = Some c →
  (length (take_profits (config data)) < length (tp_rows c) →
     renderInstrument card (VData data) w =
     (set_card card (partly_rendered c data) w, Throw undefined_take_profit) ∧
     entry_amount_input (partly_rendered c data) =
     set_value (num_to_string (entry_amount (config data))) ∧
     tp_rows (partly_rendered c data) =
     write_tp_rows (tp_rows c) (take_profits (config data)) ∧
     stop_loss_list (partly_rendered c data) = stop_loss_list c ∧
     dca_enabled_checked (partly_rendered c data) = dca_enabled_checked c ∧
     data_running (partly_rendered c data) = data_running c ∧
     log_list_ul (partly_rendered c data) = log_list_ul c) ∧
  (∀ kept extra : list TakeProfit,
     take_profits (config data) = kept ++ extra → length kept = length (tp_rows c) →
     renderInstrument card (VData data) w =
     renderInstrument card (VData (with_take_profits kept data)) w).
Proof.
  intros Hc. split.
  - intros Hlen. split; [|repeat split].
    simpl. now apply render_state_short.
  - intros kept extra Htps Hlen. simpl.
    rewrite (render_state_complete _ _ c) by (rewrite ?Htps, ?length_app; done || lia).
    rewrite (render_state_complete _ (with_take_profits kept data) c)
      by (simpl; done || lia).
    unfold arrays_after, rendered, partly_rendered. simpl.
    rewrite Htps, write_tp_rows_app by lia. reflexivity.
Qed.

(** A render only adds arrays to the store: the arrays there are kept. *)
Lemma render_state_keeps_arrays (card : nat) (data : InstrumentState) (w : World) :
  ∃ added : list (list LogEntry),
    arrays (fst (render_state card data w)) = arrays w ++ added.
Proof.
  destruct (cards w !! card) as [c|] eqn:Hc.
  - destruct (Nat.lt_ge_cases (length (take_profits (config data))) (length (tp_rows c))).
    + rewrite (render_state_short _ _ c) by done. exists []. simpl. now rewrite app_nil_r.
    + rewrite (render_state_complete _ _ c) by done. unfold arrays_after. simpl.
      destruct (log_list_ul c); [eexists; reflexivity|].
      exists []. now rewrite app_nil_r.
  - unfold render_state, the_card. rewrite run_bind, Hc. exists []. simpl.
    now rewrite app_nil_r.
Qed.

Lemma renderInstrument_keeps_arrays (card : nat) (data : Value InstrumentState)
    (w : World) :
  ∃ added : list (list LogEntry),
    arrays (fst (renderInstrument card data w)) = arrays w ++ added.
Proof.
  destruct data as [j|data]; simpl.
  - exists []. destruct j; simpl; now rewrite app_nil_r.
  - apply render_state_keeps_arrays.
Qed.

(** C8, amended.  [renderInstrument] never changes an array of the store, so
    the input [logs] array is not mutated; and when the card has a log list
    and the state has at least as many take-profits as the card has rows, the
    render completes and the log list holds one item per log entry, in the
    reverse of the order of [logs]. *)
Theorem log_list_is_reversed_copy (card : nat) (data : InstrumentState) (w : World) :
  (∀ (array : nat) (entries : list LogEntry),
     arrays w !! array = Some entries →
     arrays (fst (renderInstrument card (VData data) w)) !! array = Some entries) ∧
  (∀ (c : Card) (old : string),
     cards w !! card = Some c → log_list_ul c = Some old →
     length (tp_rows c) ≤ length (take_profits (config data)) →
     ∃ c' : Card,
       snd (renderInstrument card (VData data) w) = Ok tt ∧
       cards (fst (renderInstrument card (VData data) w)) !! card = Some c' ∧
       log_list_ul c' =
       Some (String.concat "" (map log_item (rev (arrays w !!! logs data))))).
Proof.
  split.
  - intros array entries H.
    destruct (renderInstrument_keeps_arrays card (VData data) w) as [added ->].
    now apply lookup_app_l_Some.
  - intros c old Hc Hlog Hlen. simpl.
    rewrite (render_state_complete _ _ c) by done. simpl.
    eexists. split; [reflexivity|]. split.
    + apply list_lookup_insert_eq. now apply lookup_lt_Some in Hc.
    + simpl. now rewrite Hlog.
Qed.

(** ** Render, then collect *)

Section RoundTrip.

Context {laws : JsRuntimeLaws rt}.

Lemma parse_written (x : num) :
  isFinite x = true → parseFloat (set_value (num_to_string x)) = x.
Proof.
  intros H. unfold set_value.
  now rewrite sanitize_num_to_string, parseFloat_num_to_string.
Qed.

Lemma collected_tp_rows (rows : list TpRow) :
  ∀ tps : list TakeProfit,
  length rows = length tps →
  Forall (λ tp, isFinite (tp_offset_percent tp) = true ∧
                isFinite (tp_volume_percent tp) = true) tps →
  map (λ row, (parseFloat (tp_offset_input row), parseFloat (tp_volume_input row)))
      (write_tp_rows rows tps) = map tp_numbers tps.
Proof.
  induction rows as [|r rows IH]; intros [|tp tps] Hlen Hfin; simpl in *;
    try reflexivity; try lia.
  inversion Hfin as [|? ? [Ho Hv] Hrest]; subst.
  unfold tp_numbers at 1. rewrite !parse_written by done.
  f_equal. apply IH; [lia|done].
Qed.

Lemma collected_stop_losses (sls : list StopLoss) :
  Forall (λ sl, isFinite (sl_offset_percent sl) = true ∧
                isFinite (sl_volume_percent sl) = true) sls →
  map (λ row,
        {| sl_offset_percent := parseFloat (sl_offset_input row);
           sl_volume_percent := parseFloat (sl_volume_input row) |})
      (map stop_loss_row sls) = sls.
Proof.
  induction 1 as [|sl sls [Ho Hv] _ IH]; simpl; [reflexivity|].
  rewrite IH. f_equal. unfold template_text.
  rewrite !sanitize_num_to_string, !parseFloat_num_to_string by done.
  now destruct sl.
Qed.

(** A [null]-or-number field, written by the render and read back. *)
Lemma collected_optional (o : option num) :
  (∀ x, o = Some x → isFinite x = true) →
  (if is_empty (trim (set_value (template_text o))) then None
   else Some (parseFloat (trim (set_value (template_text o))))) = o
  ∧ is_empty (trim (set_value (template_text o))) = negb (bool_decide (is_Some o)).
Proof.
  intros Hfin. unfold set_value. destruct o as [x|]; simpl.
  - specialize (Hfin x eq_refl).
    rewrite sanitize_num_to_string, trim_num_to_string by done.
    assert (Hne : is_empty (num_to_string x) = false).
    { unfold is_empty. apply String.eqb_neq. apply num_to_string_nonempty. }
    rewrite Hne, parseFloat_num_to_string by done. split; reflexivity.
  - rewrite sanitize_number_empty, trim_empty. split; reflexivity.
Qed.

(** C7, amended.  For a card with as many take-profit rows as the state has
    take-profits, and a state whose config numbers are finite and whose
    [tp1_dca], when enabled, has both of its numbers: [renderInstrument]
    followed by [collectConfig] succeeds and gives back the entry amount, the
    offset and volume of every take-profit, the stop-losses and [tp1_dca] of
    the state.  (The labels of the take-profits and the symbol are read from
    the card, and no server-only field is collected.) *)
Theorem render_then_collect (card : nat) (c : Card) (data : InstrumentState) (w : World) :
  cards w !! card = Some c →
  finite_config (config data) →
  length (tp_rows c) = length (take_profits (config data)) →
  dca_complete (config data) →
  ∃ (w1 : World) (payload : ConfigPayload),
    renderInstrument card (VData data) w = (w1, Ok tt) ∧
    collectConfig card w1 = (w1, Ok payload) ∧
    payload_entry_amount payload = entry_amount (config data) ∧
    map tp_numbers (payload_take_profits payload) =
    map tp_numbers (take_profits (config data)) ∧
    payload_stop_losses payload = stop_losses (config data) ∧
    payload_tp1_dca payload = tp1_dca (config data).
Proof.
  intros Hc (Hentry & Htps & Hsls & Hoff & Hqty) Hlen Hdca.
  simpl. rewrite (render_state_complete _ _ c) by first [done | lia].
  pose (c' := rendered c data (arrays w !!! logs data)).
  pose (w1 := with_arrays (arrays_after c data w) (set_card card c' w)).
  assert (Hc' : cards w1 !! card = Some c').
  { simpl. apply list_lookup_insert_eq. now apply lookup_lt_Some in Hc. }
  destruct (collected_optional _ Hoff) as [Hoff1 Hoff2].
  destruct (collected_optional _ Hqty) as [Hqty1 Hqty2].
  assert (Hd : dca_incomplete c' = false).
  { unfold dca_incomplete, c'.
    cbn [rendered dca_enabled_checked dca_offset_input
      dca_quantity_input with_log_list_ul with_dca_table_tbody with_open_orders_tbody
      with_positions with_status with_dca_quantity_input with_dca_offset_input
      with_dca_enabled_checked].
    rewrite Hoff2, Hqty2.
    destruct (enabled (tp1_dca (config data))) eqn:Hen; [|reflexivity].
    destruct (Hdca Hen) as [Ho Hq].
    rewrite !bool_decide_eq_true_2 by done. reflexivity. }
  exists w1, (collected c'). split; [reflexivity|]. split.
  { rewrite (collectConfig_run _ c') by done. now rewrite Hd. }
  unfold c', collected.
  cbn [rendered partly_rendered payload_entry_amount payload_take_profits
       payload_stop_losses payload_tp1_dca entry_amount_input tp_rows stop_loss_list
       dca_enabled_checked dca_offset_input dca_quantity_input
       with_log_list_ul with_dca_table_tbody with_open_orders_tbody
       with_positions with_status with_dca_quantity_input with_dca_offset_input
       with_dca_enabled_checked with_stop_loss_list with_tp_rows with_entry_amount_input].
  split; [now apply parse_written|]. split; [|split].
  - rewrite map_map. unfold tp_numbers at 1. simpl. now apply collected_tp_rows.
  - now apply collected_stop_losses.
  - rewrite Hoff1, Hqty1. now destruct (tp1_dca (config data)).
Qed.

End RoundTrip.

(** ** Invariants of handlers *)

Lemma maintains_ret {A : Type} (I : World → Prop) (a : A) (Q : A → Prop) :
  Q a → maintains I (mret a) Q.
Proof. intros HQ w HI. split; [done|]. now intros a' [= <-]. Qed.

Lemma maintains_throw {A : Type} (I : World → Prop) (e : Exn) (Q : A → Prop) :
  maintains I (throw e) Q.
Proof. intros w HI. split; [done|]. intros a [=]. Qed.

Lemma maintains_bind {A B : Type} (I : World → Prop) (m : M A) (f : A → M B)
    (Q : A → Prop) (R : B → Prop) :
  maintains I m Q → (∀ a, Q a → maintains I (f a) R) → maintains I (m ≫= f) R.
Proof.
  intros Hm Hf w HI. rewrite run_bind.
  destruct (Hm w HI) as [HI' HQ]. destruct (m w) as [w' [a|e]]; simpl in *.
  - apply (Hf a); auto.
  - split; [done|]. intros b [=].
Qed.

Lemma maintains_try_catch {A : Type} (I : World → Prop) (m : M A) (handler : Exn → M A)
    (Q : A → Prop) :
  maintains I m Q → (∀ e, maintains I (handler e) Q) → maintains I (try_catch m handler) Q.
Proof.
  intros Hm Hh w HI. unfold try_catch.
  destruct (Hm w HI) as [HI' HQ]. destruct (m w) as [w' [a|e]]; simpl in *.
  - split; [done|]. intros a' [= <-]. auto.
  - now apply Hh.
Qed.

Lemma maintains_weaken {A : Type} (I : World → Prop) (m : M A) (Q R : A → Prop) :
  maintains I m Q → (∀ a, Q a → R a) → maintains I m R.
Proof. intros Hm HQR w HI. destruct (Hm w HI). split; auto. Qed.

Lemma maintains_forEach {A : Type} (I : World → Prop) (items : list A)
    (callback : A → nat → M unit) :
  (∀ item index, item ∈ items → maintains I (callback item index) (λ _, True)) →
  ∀ index, maintains I (forEach items callback index) (λ _, True).
Proof.
  induction items as [|item items IH]; intros Hcb index; simpl.
  - now apply maintains_ret.
  - apply (maintains_bind _ _ _ (λ _, True)).
    + apply Hcb. now left.
    + intros _ _. apply IH. intros x i Hx. apply Hcb. now right.
Qed.

(** ** The cap on stop-losses *)

Lemma capped_alert (msg : string) (Q : unit → Prop) :
  (∀ u, Q u) → maintains capped (alert msg) Q.
Proof. intros HQ w HI. split; [exact HI|auto]. Qed.

Lemma capped_the_card (card : nat) :
  maintains capped (the_card card) card_capped.
Proof.
  intros w HI. unfold the_card. destruct (cards w !! card) as [c|] eqn:Hc; simpl.
  - split; [done|]. intros a [= <-]. destruct HI as [Hcards _].
    rewrite Forall_lookup in Hcards. eauto.
  - split; [done|]. intros a [=].
Qed.

Lemma capped_update_card (card : nat) (f : Card → Card) (Q : unit → Prop) :
  (∀ c, card_capped c → card_capped (f c)) → (∀ u, Q u) →
  maintains capped (update_card card f) Q.
Proof.
  intros Hf HQ w [Hcards Hreqs]. split; [|auto]. split; [|exact Hreqs].
  simpl. apply Forall_alter; [exact Hcards|]. intros c _ Hc. now apply Hf.
Qed.

Lemma capped_set_card (card : nat) (c : Card) (w : World) :
  capped w → card_capped c → capped (set_card card c w).
Proof.
  intros [Hcards Hreqs] Hc. split; [|exact Hreqs]. simpl. now apply Forall_insert.
Qed.

Lemma capped_API_request {T : Type} (url : string) (options : Options) (reply : Reply T) :
  request_capped (issued url options) →
  maintains capped (API_request url options reply)
    (λ v, ∀ x, v = VData x → reply_data reply = Some x).
Proof.
  intros Hreq w [Hcards Hreqs]. split.
  - rewrite API_request_world. split; [exact Hcards|].
    simpl. apply Forall_app. split; [exact Hreqs|]. now constructor.
  - intros v Hv x ->. unfold API_request in Hv. rewrite run_bind in Hv.
    destruct reply as [reason|response]; simpl in Hv; [discriminate|].
    destruct (ok response); simpl in Hv.
    + destruct (status response =? 204)%Z; simpl in Hv; [discriminate|].
      unfold response_json in Hv. simpl.
      destruct (json response); simpl in Hv; congruence.
    + unfold try_catch, response_json in Hv.
      destruct (json response) as [reason|j|v]; simpl in Hv; try discriminate.
      destruct j; discriminate.
Qed.

Lemma capped_render_state (card : nat) (data : InstrumentState) :
  state_capped data → maintains capped (render_state card data) (λ _, True).
Proof.
  intros Hdata w HI. split; [|done].
  destruct (cards w !! card) as [c|] eqn:Hc.
  - assert (Hcc : card_capped c).
    { destruct HI as [Hcards _]. rewrite Forall_lookup in Hcards. eauto. }
    destruct (Nat.lt_ge_cases (length (take_profits (config data))) (length (tp_rows c))).
    + rewrite (render_state_short _ _ c) by done. simpl. now apply capped_set_card.
    + rewrite (render_state_complete _ _ c) by done. simpl.
      apply (capped_set_card card (rendered c data (arrays w !!! logs data)) w HI).
      unfold card_capped. simpl. rewrite length_map. exact Hdata.
  - unfold render_state, the_card. rewrite run_bind, Hc. exact HI.
Qed.

Lemma capped_renderInstrument (card : nat) (data : Value InstrumentState) :
  (∀ s, data = VData s → state_capped s) →
  maintains capped (renderInstrument card data) (λ _, True).
Proof.
  intros Hdata. destruct data as [j|s]; simpl.
  - destruct j; apply maintains_throw.
  - apply capped_render_state. now apply Hdata.
Qed.

Lemma capped_collectConfig (card : nat) :
  maintains capped (collectConfig card)
    (λ payload, length (payload_stop_losses payload) ≤ 10).
Proof.
  intros w HI. destruct (cards w !! card) as [c|] eqn:Hc.
  - rewrite (collectConfig_run _ c) by done. split; [exact HI|].
    intros payload Hp. simpl in Hp. destruct (dca_incomplete c); [discriminate|].
    injection Hp as <-. simpl. rewrite length_map.
    destruct HI as [Hcards _]. rewrite Forall_lookup in Hcards. now apply (Hcards card).
  - unfold collectConfig, the_card. rewrite run_bind, Hc. split; [exact HI|].
    intros a [=].
Qed.

Lemma length_delete_le {A : Type} (l : list A) (i : nat) :
  length (delete i l) ≤ length l.
Proof.
  revert i. induction l as [|x l IH]; intros [|i]; simpl; try lia.
  specialize (IH i). lia.
Qed.

Lemma capped_render_reply (card : nat) (reply : Reply InstrumentState)
    (call : M (Value InstrumentState)) :
  maintains capped call (λ v, ∀ x, v = VData x → reply_data reply = Some x) →
  Forall state_capped (if reply_data reply is Some data then [data] else []) →
  maintains capped
    (try_catch (data ← call; renderInstrument card data)
               (λ error, alert (exn_message error)))
    (λ _, True).
Proof.
  intros Hcall Hreply. apply maintains_try_catch.
  - eapply maintains_bind; [exact Hcall|]. intros v Hv.
    apply capped_renderInstrument. intros s ->.
    rewrite (Hv s eq_refl) in Hreply. now inversion Hreply.
  - intros e. now apply capped_alert.
Qed.

Lemma issued_without_body_capped (url : string) (options : Options) :
  opt_body options = None → request_capped (issued url options).
Proof. intros H payload. simpl. now rewrite H. Qed.

Lemma capped_submit (card : nat) (reply : Reply InstrumentState) :
  Forall state_capped (if reply_data reply is Some data then [data] else []) →
  maintains capped (submit card reply) (λ _, True).
Proof.
  intros Hreply. unfold submit.
  eapply maintains_bind; [apply capped_the_card|]. intros c _.
  apply maintains_try_catch; [|intros e; now apply capped_alert].
  eapply maintains_bind; [apply capped_collectConfig|]. intros payload Hp.
  eapply maintains_bind.
  { apply capped_API_request. intros p [= <-]. exact Hp. }
  intros v Hv. simpl in Hv.
  eapply maintains_bind; [|intros _ _; now apply capped_alert].
  apply capped_renderInstrument. intros s ->.
  rewrite (Hv s eq_refl) in Hreply. now inversion Hreply.
Qed.

Lemma capped_update_cards (managerState : ManagerState) :
  Forall state_capped (instruments managerState) →
  maintains capped (update_cards managerState) (λ _, True).
Proof.
  intros Hstates. unfold update_cards. apply maintains_forEach.
  intros instrument index Hin. unfold render_matching_card.
  apply (maintains_bind _ _ _ (λ _, True)).
  - intros w HI. rewrite querySelector_card_world. split; [exact HI|done].
  - intros [card|] _; [|now apply maintains_ret].
    apply capped_renderInstrument. intros s [= <-].
    rewrite Forall_forall in Hstates. now apply Hstates.
Qed.

Lemma capped_update_reply (reply : Reply ManagerState) (call : M (Value ManagerState)) :
  maintains capped call (λ v, ∀ x, v = VData x → reply_data reply = Some x) →
  Forall state_capped
    (if reply_data reply is Some managerState then instruments managerState else []) →
  maintains capped
    (try_catch (state ← call; updateAll state) (λ error, alert (exn_message error)))
    (λ _, True).
Proof.
  intros Hcall Hreply. apply maintains_try_catch.
  - eapply maintains_bind; [exact Hcall|]. intros v Hv.
    destruct v as [j|managerState]; simpl.
    + destruct j; apply maintains_throw.
    + apply capped_update_cards. now rewrite (Hv managerState eq_refl) in Hreply.
  - intros e. now apply capped_alert.
Qed.

Lemma capped_handler (e : Event) :
  Forall state_capped (event_states e) → maintains capped (handler e) (λ _, True).
Proof.
  destruct e as [card|card row|card reply|card reply|card reply|card confirmed reply
                |card reply|reply|reply]; simpl; intros Hstates.
  - intros w HI. split; [|done].
    destruct (cards w !! card) as [c|] eqn:Hc.
    + destruct (Nat.lt_ge_cases (length (stop_loss_list c)) 10).
      * rewrite (add_stop_click_below _ c) by done. simpl.
        apply (capped_set_card _ _ _ HI). unfold card_capped. simpl.
        rewrite length_app. simpl. lia.
      * rewrite (add_stop_click_full _ c) by done. exact HI.
    + unfold add_stop_click, the_card. rewrite run_bind, Hc. exact HI.
  - unfold remove_stop_click. apply capped_update_card; [|done].
    intros c Hc. unfold card_capped in *. simpl.
    pose proof (length_delete_le (stop_loss_list c) row). lia.
  - now apply capped_submit.
  - unfold start_click.
    eapply maintains_bind; [apply capped_the_card|]. intros c _.
    apply (capped_render_reply card reply); [|done].
    apply capped_API_request. now apply issued_without_body_capped.
  - unfold stop_click.
    eapply maintains_bind; [apply capped_the_card|]. intros c _.
    apply (capped_render_reply card reply); [|done].
    apply capped_API_request. now apply issued_without_body_capped.
  - unfold close_click.
    eapply maintains_bind; [apply capped_the_card|]. intros c _.
    destruct confirmed; simpl; [|now apply maintains_ret].
    apply (capped_render_reply card reply); [|done].
    apply capped_API_request. now apply issued_without_body_capped.
  - unfold refresh_click.
    eapply maintains_bind; [apply capped_the_card|]. intros c _.
    apply (capped_render_reply card reply); [|done].
    apply capped_API_request. now apply issued_without_body_capped.
  - unfold start_all_click. apply (capped_update_reply reply); [|done].
    apply capped_API_request. now apply issued_without_body_capped.
  - unfold stop_all_click. apply (capped_update_reply reply); [|done].
    apply capped_API_request. now apply issued_without_body_capped.
Qed.

(** C1, amended.  From a page on which every card shows at most 10 stop-loss
    rows, and after any sequence of events (add, remove, submit, start, stop,
    close, refresh, start-all, stop-all) in which every reply that is
    rendered carries a state of the shape its endpoint promises, or a
    document with no [config] (no [instruments]) at all, and in which every
    instrument state that the server returns has at most 10 stop-losses,
    every request issued carries at most 10 stop-losses, and every card still
    shows at most 10 rows. *)
Theorem submitted_stop_losses_capped (w0 : World) (events : list Event) :
  Forall card_capped (cards w0) →
  Forall request_capped (requests w0) →
  Forall (λ e, event_shaped e ∧ Forall state_capped (event_states e)) events →
  Forall request_capped (requests (run_events events w0)) ∧
  Forall card_capped (cards (run_events events w0)).
Proof.
  intros Hcards Hreqs Hevents.
  assert (H : capped (run_events events w0)); [|destruct H; now split].
  assert (HI : capped w0) by now split.
  clear Hcards Hreqs. revert w0 HI.
  induction Hevents as [|e events [_ He] _ IH]; intros w0 HI; simpl; [exact HI|].
  apply IH. unfold step. now apply (capped_handler e He w0).
Qed.

(** ** A render and the other cards *)


End Properties.

(** * Further properties *)

Section FurtherProperties.

Context {rt : JsRuntime}.

(** ** Tabs *)

Lemma list_find_deactivated (target : string) (sections : list TabContent) :
  list_find (λ s, data_tab s = target) (content_set_active false <$> sections) =
  prod_map id (content_set_active false)
    <$> list_find (λ s, data_tab s = target) sections.
Proof.
  rewrite list_find_fmap. unfold compose. simpl. reflexivity.
Qed.

(** X1.  A click on a tab button whose target is safe in a selector and is
    the [data-tab] of some section completes, and then the clicked button is
    the only active button and the first section with that [data-tab] is the
    only active section; targets and tab keys are as they were. *)
Theorem tab_click_activates_one_pair (button found : nat) (clicked : TabButton)
    (section : TabContent) (t : Tabs) :
  tab_buttons t !! button = Some clicked →
  selector_safe (data_target clicked) = true →
  list_find (λ s, data_tab s = data_target clicked) (tab_contents t)
  = Some (found, section) →
  snd (tab_click button t) = Ok tt ∧
  tab_buttons (fst (tab_click button t)) =
  imap (λ i b, {| data_target := data_target b;
                  button_active := bool_decide (i = button) |}) (tab_buttons t) ∧
  tab_contents (fst (tab_click button t)) =
  imap (λ i s, {| data_tab := data_tab s;
                  content_active := bool_decide (i = found) |}) (tab_contents t).
Proof.
  intros Hb Hsafe Hfind. unfold tab_click. rewrite Hb, Hsafe.
  rewrite list_find_deactivated, Hfind. simpl.
  split; [reflexivity|]. split.
  - apply list_eq. intros i.
    rewrite list_lookup_alter, !list_lookup_fmap, list_lookup_imap.
    destruct (decide (button = i)) as [->|Hne].
    + destruct (tab_buttons t !! i); simpl; [|reflexivity].
      now rewrite bool_decide_eq_true_2.
    + destruct (tab_buttons t !! i); simpl; [|reflexivity].
      now rewrite bool_decide_eq_false_2 by congruence.
  - apply list_eq. intros i.
    rewrite list_lookup_alter, !list_lookup_fmap, list_lookup_imap.
    destruct (decide (found = i)) as [->|Hne].
    + destruct (tab_contents t !! i); simpl; [|reflexivity].
      now rewrite bool_decide_eq_true_2.
    + destruct (tab_contents t !! i); simpl; [|reflexivity].
      now rewrite bool_decide_eq_false_2 by congruence.
Qed.

(** X2.  A click on a tab button whose target is safe in a selector and is
    the [data-tab] of no section throws a TypeError, after the clicked button
    was made the only active button and every section was deactivated: no
    section is shown. *)
Theorem tab_click_without_section (button : nat) (clicked : TabButton) (t : Tabs) :
  tab_buttons t !! button = Some clicked →
  selector_safe (data_target clicked) = true →
  (∀ s, s ∈ tab_contents t → data_tab s ≠ data_target clicked) →
  snd (tab_click button t) = Throw no_tab_section ∧
  tab_buttons (fst (tab_click button t)) =
  imap (λ i b, {| data_target := data_target b;
                  button_active := bool_decide (i = button) |}) (tab_buttons t) ∧
  tab_contents (fst (tab_click button t)) =
  (λ s, {| data_tab := data_tab s; content_active := false |}) <$> tab_contents t.
Proof.
  intros Hb Hsafe Hnone. unfold tab_click. rewrite Hb, Hsafe.
  rewrite list_find_deactivated.
  assert (Hfind : list_find (λ s, data_tab s = data_target clicked) (tab_contents t) = None).
  { apply list_find_None. rewrite Forall_forall. intros s Hs. now apply Hnone. }
  rewrite Hfind. simpl. split; [reflexivity|]. split; [|reflexivity].
  apply list_eq. intros i.
  rewrite list_lookup_alter, !list_lookup_fmap, list_lookup_imap.
  destruct (decide (button = i)) as [->|Hne].
  - destruct (tab_buttons t !! i); simpl; [|reflexivity].
    now rewrite bool_decide_eq_true_2.
  - destruct (tab_buttons t !! i); simpl; [|reflexivity].
    now rewrite bool_decide_eq_false_2 by congruence.
Qed.

(** ** The ways a render ends *)

Lemma render_state_cases (card : nat) (data : InstrumentState) (w : World) :
  (cards w !! card = None ∧ fst (render_state card data w) = w ∧
   ∃ e, snd (render_state card data w) = Throw e) ∨
  (∃ c, cards w !! card = Some c ∧
        length (take_profits (config data)) < length (tp_rows c) ∧
        render_state card data w =
        (set_card card (partly_rendered c data) w, Throw undefined_take_profit)) ∨
  (∃ c, cards w !! card = Some c ∧
        length (tp_rows c) ≤ length (take_profits (config data)) ∧
        render_state card data w =
        (with_arrays (arrays_after c data w)
           (set_card card (rendered c data (arrays w !!! logs data)) w), Ok tt)).
Proof.
  destruct (cards w !! card) as [c|] eqn:Hc.
  - right.
    destruct (Nat.lt_ge_cases (length (take_profits (config data))) (length (tp_rows c))).
    + left. exists c. repeat split; [done|]. now apply render_state_short.
    + right. exists c. repeat split; [done|]. now apply render_state_complete.
  - left. unfold render_state, the_card. rewrite run_bind, Hc. eauto.
Qed.

Lemma write_tp_rows_labels (rows : list TpRow) :
  ∀ tps, data_label <$> write_tp_rows rows tps = data_label <$> rows.
Proof.
  induction rows as [|r rows IH]; intros [|tp tps]; simpl; try reflexivity.
  f_equal. apply IH.
Qed.

Lemma card_identity_partly_rendered (c : Card) (data : InstrumentState) :
  card_identity (partly_rendered c data) = card_identity c.
Proof. unfold card_identity. simpl. now rewrite write_tp_rows_labels. Qed.

Lemma card_identity_rendered (c : Card) (data : InstrumentState) (entries : list LogEntry) :
  card_identity (rendered c data entries) = card_identity c.
Proof.
  unfold card_identity. simpl. rewrite write_tp_rows_labels.
  now destruct (open_orders_tbody c), (dca_table_tbody c), (log_list_ul c).
Qed.

(** A part of the page that the array store and a write to a card that keeps
    its identity do not change is left as it was by a render. *)
Lemma renderInstrument_untouched {X : Type} (get : World → X) (card : nat)
    (data : Value InstrumentState) :
  (∀ v w, get (with_arrays v w) = get w) →
  (∀ i c c' w, cards w !! i = Some c → card_identity c' = card_identity c →
               get (set_card i c' w) = get w) →
  untouched get (renderInstrument card data).
Proof.
  intros Harrays Hcard w. destruct data as [j|data]; simpl.
  - now destruct j.
  - destruct (render_state_cases card data w)
      as [(_ & -> & _)|[(c & Hc & _ & ->)|(c & Hc & _ & ->)]]; simpl.
    + reflexivity.
    + apply (Hcard card c); [done|]. apply card_identity_partly_rendered.
    + rewrite Harrays. apply (Hcard card c); [done|]. apply card_identity_rendered.
Qed.

Lemma page_identity_set_card (i : nat) (c c' : Card) (w : World) :
  cards w !! i = Some c → card_identity c' = card_identity c →
  page_identity (set_card i c' w) = page_identity w.
Proof.
  intros Hc Hid. unfold page_identity. simpl.
  rewrite list_fmap_insert, Hid. apply list_insert_id.
  now rewrite list_lookup_fmap, Hc.
Qed.

Lemma renderInstrument_requests (card : nat) (data : Value InstrumentState) :
  untouched requests (renderInstrument card data).
Proof. now apply renderInstrument_untouched. Qed.

Lemma renderInstrument_alerts (card : nat) (data : Value InstrumentState) :
  untouched alerts (renderInstrument card data).
Proof. now apply renderInstrument_untouched. Qed.

Lemma renderInstrument_identity (card : nat) (data : Value InstrumentState) :
  untouched page_identity (renderInstrument card data).
Proof.
  apply renderInstrument_untouched; [reflexivity|]. apply page_identity_set_card.
Qed.

Lemma untouched_ret {A X : Type} (get : World → X) (a : A) : untouched get (mret a : M A).
Proof. now intros w. Qed.

Lemma untouched_bind {A B X : Type} (get : World → X) (m : M A) (f : A → M B) :
  untouched get m → (∀ a, untouched get (f a)) → untouched get (m ≫= f).
Proof.
  intros Hm Hf w. rewrite run_bind. specialize (Hm w).
  destruct (m w) as [w' [a|e]]; simpl in *; [|exact Hm].
  now rewrite Hf.
Qed.

Lemma untouched_forEach {A X : Type} (get : World → X) (items : list A)
    (callback : A → nat → M unit) :
  (∀ item index, untouched get (callback item index)) →
  ∀ index, untouched get (forEach items callback index).
Proof.
  intros Hcb. induction items as [|item items IH]; intros index; simpl.
  - apply untouched_ret.
  - apply untouched_bind; [apply Hcb|]. intros _. apply IH.
Qed.

Lemma updateAll_untouched {X : Type} (get : World → X) (state : Value ManagerState) :
  (∀ card data, untouched get (renderInstrument card data)) →
  untouched get (updateAll state).
Proof.
  intros Hrender. destruct state as [j|managerState]; simpl.
  - intros w. now destruct j.
  - unfold update_cards. apply untouched_forEach. intros instrument index.
    unfold render_matching_card. apply untouched_bind.
    { intros w. now rewrite querySelector_card_world. }
    intros [card|]; [apply Hrender|apply untouched_ret].
Qed.





(** ** Stop-loss rows, again *)

Lemma delete_last_appended {A : Type} (l : list A) (x : A) :
  delete (length l) (l ++ [x]) = l.
Proof. induction l as [|y l IH]; simpl; [reflexivity|]. now rewrite IH. Qed.

(** X3.  Removing the row that a click on add-stop has just appended gives
    back the page as it was before the click; and the remove control of a row
    removes that row and no other. *)
Theorem remove_undoes_add (card : nat) (c : Card) (w : World) :
  cards w !! card = Some c →
  (length (stop_loss_list c) < 10 →
   run_events [AddStop card; RemoveStop card (length (stop_loss_list c))] w = w) ∧
  (∀ row, ∃ c',
     cards (fst (remove_stop_click card row w)) !! card = Some c' ∧
     stop_loss_list c' = take row (stop_loss_list c) ++ drop (S row) (stop_loss_list c) ∧
     with_stop_loss_list (stop_loss_list c) c' = c).
Proof.
  intros Hc. split.
  - intros Hlen. unfold run_events, step. cbn [fold_left handler].
    rewrite (add_stop_click_below _ c) by done. cbn [fst].
    unfold remove_stop_click.
    erewrite update_card_run by now apply (set_card_lookup _ c).
    cbn [fst]. rewrite set_card_twice. cbn [stop_loss_list with_stop_loss_list].
    rewrite delete_last_appended.
    replace (with_stop_loss_list (stop_loss_list c) _) with c by now destruct c.
    now apply set_card_same.
  - intros row. unfold remove_stop_click. rewrite (update_card_run _ _ c) by done.
    eexists. split; [now apply (set_card_lookup _ c)|]. simpl. split.
    + apply delete_take_drop.
    + now destruct c.
Qed.

(** ** What a call of the API client does *)

Lemma API_call_world {T : Type} (m : ApiMethod) (reply : Reply T) (w : World) :
  fst (API_call m reply w) = with_requests (requests w ++ [request_of m]) w.
Proof. destruct m; apply API_request_world. Qed.

Lemma API_request_parsed {T : Type} (url : string) (options : Options)
    (response : Response T) (w : World) :
  ok response = true → status response ≠ 204%Z →
  snd (API_request url options (Responded response) w) =
  match json response with
  | ParseFailure reason => Throw (SyntaxError reason)
  | Document j => Ok (VJson j)
  | Data v => Ok (VData v)
  end.
Proof.
  intros Hok Hstatus. unfold API_request. rewrite run_bind. simpl. rewrite Hok. simpl.
  destruct (Z.eqb_spec (status response) 204); [done|].
  unfold response_json. now destruct (json response).
Qed.

Lemma API_call_parsed {T : Type} (m : ApiMethod) (response : Response T) (w : World) :
  ok response = true → status response ≠ 204%Z →
  snd (API_call m (Responded response) w) =
  match json response with
  | ParseFailure reason => Throw (SyntaxError reason)
  | Document j => Ok (VJson j)
  | Data v => Ok (VData v)
  end.
Proof.
  intros Hok Hstatus.
  destruct (API_call_request m (Responded response)) as (url & options & ->).
  now apply API_request_parsed.
Qed.

Lemma API_call_no_content {T : Type} (m : ApiMethod) (response : Response T) (w : World) :
  status response = 204%Z →
  snd (API_call m (Responded response) w) = Ok (VJson JNull).
Proof.
  intros H. destruct (API_call_request m (Responded response)) as (url & options & ->).
  now apply API_request_no_content.
Qed.

(** X10.  Every method of the API client issues exactly one request, the one
    of the method, whatever the reply, and changes nothing else of the page;
    when the network fails it rejects with the TypeError of [fetch]. *)
Theorem call_issues_one_request {T : Type} (m : ApiMethod) (w : World) :
  (∀ reply : Reply T,
     fst (API_call m reply w) = with_requests (requests w ++ [request_of m]) w) ∧
  (∀ reason : string,
     snd (API_call m (NetworkFailure (T:=T) reason) w) = Throw (TypeError reason)).
Proof.
  split.
  - intros reply. apply API_call_world.
  - intros reason. now destruct m.
Qed.

(** X11.  On a response in 200-299 other than 204, every method of the API
    client gives what parsing the body gives: it rejects with a SyntaxError
    when the body is not JSON and resolves to the parsed body otherwise. *)
Theorem success_resolves_to_parsed_body {T : Type} (m : ApiMethod)
    (response : Response T) (w : World) :
  ok response = true → status response ≠ 204%Z →
  snd (API_call m (Responded response) w) =
  match json response with
  | ParseFailure reason => Throw (SyntaxError reason)
  | Document j => Ok (VJson j)
  | Data v => Ok (VData v)
  end.
Proof. apply API_call_parsed. Qed.

(** X12.  On a response outside 200-299 whose body is the document [null],
    every method of the API client rejects with a TypeError, the one of
    reading [detail] of [null]: neither the status text nor the fallback
    message is used. *)
Theorem null_error_body_is_type_error {T : Type} (m : ApiMethod)
    (response : Response T) (w : World) :
  ok response = false → json response = Document JNull →
  snd (API_call m (Responded response) w) =
  Throw (TypeError "Cannot read properties of null (reading 'detail')").
Proof.
  intros Hok Hnull.
  destruct (API_call_request m (Responded response)) as (url & options & ->).
  unfold API_request. rewrite run_bind. simpl. rewrite Hok. simpl.
  unfold try_catch, response_json. now rewrite Hnull.
Qed.

(** ** Reading the form *)

(** X13.  [collectConfig] only reads the page.  It either throws the DCA
    message or returns a payload; with DCA off it returns one whatever the
    DCA fields hold, a blank field read as [null]; and a payload it returns
    has the symbol of the card, one take-profit per row with the label of
    the row, one stop-loss per row and, when DCA is on, both DCA numbers. *)
Theorem collectConfig_reads_the_card (card : nat) (c : Card) (w : World) :
  cards w !! card = Some c →
  fst (collectConfig card w) = w ∧
  (snd (collectConfig card w) = Throw (Error dca_required_message) ∨
   ∃ payload, snd (collectConfig card w) = Ok payload) ∧
  (dca_enabled_checked c = false →
   ∃ payload, snd (collectConfig card w) = Ok payload ∧
     enabled (payload_tp1_dca payload) = false ∧
     (dca_offset_percent (payload_tp1_dca payload) = None
      ↔ trim (dca_offset_input c) = "") ∧
     (quantity (payload_tp1_dca payload) = None
      ↔ trim (dca_quantity_input c) = "")) ∧
  (∀ payload, snd (collectConfig card w) = Ok payload →
     payload_symbol payload = data_symbol c ∧
     label <$> payload_take_profits payload = data_label <$> tp_rows c ∧
     length (payload_stop_losses payload) = length (stop_loss_list c) ∧
     (enabled (payload_tp1_dca payload) = true →
      is_Some (dca_offset_percent (payload_tp1_dca payload)) ∧
      is_Some (quantity (payload_tp1_dca payload)))).
Proof.
  intros Hc. rewrite (collectConfig_run _ c) by done. simpl.
  split; [reflexivity|]. split; [destruct (dca_incomplete c); eauto|]. split.
  - intros Hoff. unfold dca_incomplete. rewrite Hoff. simpl.
    eexists. split; [reflexivity|]. simpl. split; [done|]. unfold is_empty.
    split.
    + destruct (String.eqb_spec (trim (dca_offset_input c)) ""); split; congruence.
    + destruct (String.eqb_spec (trim (dca_quantity_input c)) ""); split; congruence.
  - intros payload. unfold dca_incomplete.
    destruct (dca_enabled_checked c) eqn:Hon; simpl.
    + destruct (is_empty (trim (dca_offset_input c))) eqn:Ho; simpl; [discriminate|].
      destruct (is_empty (trim (dca_quantity_input c))) eqn:Hq; simpl; [discriminate|].
      intros [= <-]. simpl. rewrite Ho, Hq, Hon.
      split; [done|]. split; [|split; [now rewrite length_map|eauto]].
      rewrite <- list_fmap_compose. reflexivity.
    + intros [= <-]. simpl. rewrite Hon.
      split; [done|]. split; [|split; [now rewrite length_map|done]].
      rewrite <- list_fmap_compose. reflexivity.
Qed.

(** ** The handlers, event by event *)

Lemma guarded_call_run {T : Type} (m : ApiMethod) (reply : Reply T)
    (k : Value T → M unit) (w : World) :
  try_catch (v ← API_call m reply; k v) (λ error, alert (exn_message error)) w =
  match snd (API_call m reply w) with
  | Throw err => alert (exn_message err) (with_requests (requests w ++ [request_of m]) w)
  | Ok v =>
      match k v (with_requests (requests w ++ [request_of m]) w) with
      | (w2, Ok _) => (w2, Ok tt)
      | (w2, Throw err) => alert (exn_message err) w2
      end
  end.
Proof.
  unfold try_catch. rewrite run_bind. pose proof (API_call_world m reply w) as Hw.
  destruct (API_call m reply w) as [w1 [v|err]]; simpl in *; subst w1; [|reflexivity].
  now destruct (k v _) as [w2 [[]|err]].
Qed.

Lemma try_catch_after {A B : Type} (m : M A) (f : A → M B) (h : Exn → M B)
    (w : World) (a : A) :
  m w = (w, Ok a) → try_catch (m ≫= f) h w = try_catch (f a) h w.
Proof. intros H. unfold try_catch. now rewrite run_bind, H. Qed.

Lemma with_alerts_same (w : World) : with_alerts (alerts w ++ []) w = w.
Proof. rewrite app_nil_r. now destruct w. Qed.

(** An event on one instrument that makes its call. *)
Lemma instrument_handler_run (e : Event) (card : nat) (reply : Reply InstrumentState)
    (c : Card) (m : ApiMethod) (w : World) :
  instrument_event e = Some (card, reply) → cards w !! card = Some c →
  event_call e w = Some m →
  handler e w =
  match snd (API_call m reply w) with
  | Throw err => alert (exn_message err) (with_requests (requests w ++ [request_of m]) w)
  | Ok data =>
      match renderInstrument card data (with_requests (requests w ++ [request_of m]) w) with
      | (w2, Ok _) => (with_alerts (alerts w2 ++ success_alert e) w2, Ok tt)
      | (w2, Throw err) => alert (exn_message err) w2
      end
  end.
Proof.
  intros He Hc Hm.
  destruct e as [?|? ?|card' reply'|card' reply'|card' reply'|card' confirmed reply'
                |card' reply'|?|?]; simpl in He; try discriminate;
    injection He as -> ->; simpl in Hm; rewrite Hc in Hm; simpl in Hm.
  - destruct (dca_incomplete c) eqn:Hd; [discriminate|]. injection Hm as <-.
    simpl. unfold submit. rewrite run_bind, (the_card_run _ c) by done.
    rewrite (try_catch_after _ _ _ _ (collected c))
      by now rewrite (collectConfig_run _ c), Hd.
    change (API_updateConfig (data_symbol c) (collected c) reply)
      with (API_call (UpdateConfig (data_symbol c) (collected c)) reply).
    rewrite guarded_call_run. destruct (snd _); [|reflexivity].
    rewrite run_bind.
    now destruct (renderInstrument _ _ _) as [w2 [[]|err]].
  - injection Hm as <-. simpl. unfold start_click.
    rewrite run_bind, (the_card_run _ c) by done.
    change (API_start (data_symbol c) reply)
      with (API_call (Start (data_symbol c)) reply).
    rewrite guarded_call_run. destruct (snd _); [|reflexivity].
    destruct (renderInstrument _ _ _) as [w2 [[]|err]]; [|reflexivity].
    now rewrite with_alerts_same.
  - injection Hm as <-. simpl. unfold stop_click.
    rewrite run_bind, (the_card_run _ c) by done.
    change (API_stop (data_symbol c) reply)
      with (API_call (Stop (data_symbol c)) reply).
    rewrite guarded_call_run. destruct (snd _); [|reflexivity].
    destruct (renderInstrument _ _ _) as [w2 [[]|err]]; [|reflexivity].
    now rewrite with_alerts_same.
  - destruct confirmed; [|discriminate]. injection Hm as <-. simpl. unfold close_click.
    rewrite run_bind, (the_card_run _ c) by done. cbn [negb].
    change (API_close (data_symbol c) reply)
      with (API_call (Close (data_symbol c)) reply).
    rewrite guarded_call_run. destruct (snd _); [|reflexivity].
    destruct (renderInstrument _ _ _) as [w2 [[]|err]]; [|reflexivity].
    now rewrite with_alerts_same.
  - injection Hm as <-. simpl. unfold refresh_click.
    rewrite run_bind, (the_card_run _ c) by done.
    change (API_refreshInstrument (data_symbol c) reply)
      with (API_call (RefreshInstrument (data_symbol c)) reply).
    rewrite guarded_call_run. destruct (snd _); [|reflexivity].
    destruct (renderInstrument _ _ _) as [w2 [[]|err]]; [|reflexivity].
    now rewrite with_alerts_same.
Qed.

(** An event on one instrument that makes no call: a submit whose form does
    not validate, or a close that is not confirmed. *)
Lemma instrument_handler_idle (e : Event) (card : nat) (reply : Reply InstrumentState)
    (c : Card) (w : World) :
  instrument_event e = Some (card, reply) → cards w !! card = Some c →
  event_call e w = None →
  handler e w =
  (with_alerts (alerts w ++ if e is Submit _ _ then [dca_required_message] else []) w,
   Ok tt).
Proof.
  intros He Hc Hm.
  destruct e as [?|? ?|card' reply'|card' reply'|card' reply'|card' confirmed reply'
                |card' reply'|?|?]; simpl in He; try discriminate;
    injection He as -> ->; simpl in Hm; rewrite Hc in Hm; simpl in Hm;
    try discriminate.
  - destruct (dca_incomplete c) eqn:Hd; [|discriminate].
    simpl. now apply (submit_collect_fails _ c).
  - destruct confirmed; [discriminate|]. simpl. unfold close_click.
    rewrite run_bind, (the_card_run _ c) by done. simpl.
    now rewrite with_alerts_same.
Qed.

(** An event on all instruments. *)
Lemma global_handler_run (e : Event) (m : ApiMethod) (reply : Reply ManagerState)
    (w : World) :
  (e = ClickStartAll reply ∧ m = StartAll) ∨ (e = ClickStopAll reply ∧ m = StopAll) →
  handler e w =
  match snd (API_call m reply w) with
  | Throw err => alert (exn_message err) (with_requests (requests w ++ [request_of m]) w)
  | Ok state =>
      match updateAll state (with_requests (requests w ++ [request_of m]) w) with
      | (w2, Ok _) => (w2, Ok tt)
      | (w2, Throw err) => alert (exn_message err) w2
      end
  end.
Proof.
  intros [[-> ->]|[-> ->]]; simpl.
  - unfold start_all_click.
    change (API_startAll reply) with (API_call StartAll reply).
    apply guarded_call_run.
  - unfold stop_all_click.
    change (API_stopAll reply) with (API_call StopAll reply).
    apply guarded_call_run.
Qed.

(** What every handler does to the page, for an event whose card is there. *)
Lemma handler_run (e : Event) (w : World) :
  event_on_page e w →
  ∃ (w' : World) (shown : list string),
    handler e w = (w', Ok tt) ∧
    requests w' = requests w ++ option_list (request_of <$> event_call e w) ∧
    alerts w' = alerts w ++ shown ∧ length shown ≤ 1 ∧
    page_identity w' = page_identity w.
Proof.
  intros Hon.
  destruct (instrument_event e) as [[card reply]|] eqn:He.
  - destruct (Hon card) as [c Hc].
    { destruct e; simpl in *; congruence. }
    destruct (event_call e w) as [m|] eqn:Hm.
    + rewrite (instrument_handler_run e card reply c m w) by done.
      set (w1 := with_requests (requests w ++ [request_of m]) w).
      destruct (snd (API_call m reply w)) as [data|err].
      * pose proof (renderInstrument_requests card data w1) as Hr.
        pose proof (renderInstrument_alerts card data w1) as Ha.
        pose proof (renderInstrument_identity card data w1) as Hi.
        destruct (renderInstrument card data w1) as [w2 [[]|err]]; simpl in *.
        -- exists (with_alerts (alerts w2 ++ success_alert e) w2), (success_alert e).
           split; [reflexivity|]. simpl. rewrite Ha. repeat split; try done.
           destruct e; simpl; lia.
        -- exists (with_alerts (alerts w2 ++ [exn_message err]) w2), [exn_message err].
           split; [reflexivity|]. simpl. rewrite Ha. repeat split; try done.
      * exists (with_alerts (alerts w1 ++ [exn_message err]) w1), [exn_message err].
        repeat split; try done.
    + rewrite (instrument_handler_idle e card reply c w) by done.
      eexists _, _. split; [reflexivity|]. simpl. rewrite app_nil_r.
      repeat split. destruct e; simpl; lia.
  - destruct e as [card|card row| | | | | |reply|reply]; simpl in He; try discriminate.
    + destruct (Hon card) as [c Hc]; [done|]. simpl.
      destruct (Nat.lt_ge_cases (length (stop_loss_list c)) 10).
      * rewrite (add_stop_click_below _ c) by done.
        eexists _, []. split; [reflexivity|]. simpl. rewrite !app_nil_r.
        repeat split; [lia|]. now apply (page_identity_set_card card c).
      * rewrite (add_stop_click_full _ c) by done.
        eexists _, [_]. split; [reflexivity|]. simpl. rewrite !app_nil_r.
        repeat split. lia.
    + destruct (Hon card) as [c Hc]; [done|]. simpl. unfold remove_stop_click.
      rewrite (update_card_run _ _ c) by done.
      eexists _, []. split; [reflexivity|]. simpl. rewrite !app_nil_r.
      repeat split; [lia|]. now apply (page_identity_set_card card c).
    + rewrite (global_handler_run _ StartAll reply) by (left; done).
      set (w1 := with_requests (requests w ++ [request_of StartAll]) w).
      destruct (snd (API_call StartAll reply w)) as [state|err].
      * pose proof (updateAll_untouched requests state renderInstrument_requests w1) as Hr.
        pose proof (updateAll_untouched alerts state renderInstrument_alerts w1) as Ha.
        pose proof (updateAll_untouched page_identity state renderInstrument_identity w1)
          as Hi.
        destruct (updateAll state w1) as [w2 [[]|err]]; simpl in *.
        -- exists w2, []. rewrite app_nil_r. repeat split; try done. simpl. lia.
        -- exists (with_alerts (alerts w2 ++ [exn_message err]) w2), [exn_message err].
           split; [reflexivity|]. simpl. rewrite Ha. repeat split; try done.
      * exists (with_alerts (alerts w1 ++ [exn_message err]) w1), [exn_message err].
        repeat split; try done.
    + rewrite (global_handler_run _ StopAll reply) by (right; done).
      set (w1 := with_requests (requests w ++ [request_of StopAll]) w).
      destruct (snd (API_call StopAll reply w)) as [state|err].
      * pose proof (updateAll_untouched requests state renderInstrument_requests w1) as Hr.
        pose proof (updateAll_untouched alerts state renderInstrument_alerts w1) as Ha.
        pose proof (updateAll_untouched page_identity state renderInstrument_identity w1)
          as Hi.
        destruct (updateAll state w1) as [w2 [[]|err]]; simpl in *.
        -- exists w2, []. rewrite app_nil_r. repeat split; try done. simpl. lia.
        -- exists (with_alerts (alerts w2 ++ [exn_message err]) w2), [exn_message err].
           split; [reflexivity|]. simpl. rewrite Ha. repeat split; try done.
      * exists (with_alerts (alerts w1 ++ [exn_message err]) w1), [exn_message err].
        repeat split; try done.
Qed.

Lemma alter_missing {A : Type} (f : A → A) (i : nat) (l : list A) :
  l !! i = None → alter f i l = l.
Proof.
  intros H. apply list_eq. intros j. rewrite list_lookup_alter.
  destruct (decide (i = j)) as [->|Hne]; [|reflexivity]. now rewrite H.
Qed.

(** An event whose card is not there changes nothing. *)
Lemma handler_off_page (e : Event) (w : World) :
  ¬ event_on_page e w → step w e = w ∧ event_call e w = None.
Proof.
  intros Hoff.
  assert (∃ card, event_card e = Some card ∧ cards w !! card = None) as (card & He & Hc).
  { destruct (event_card e) as [card|] eqn:He.
    - exists card. split; [done|]. destruct (cards w !! card) eqn:Hc; [|done].
      destruct Hoff. intros card' Hcard'. rewrite He in Hcard'.
      injection Hcard' as <-. eauto.
    - destruct Hoff. intros card' Hcard'. congruence. }
  unfold step.
  destruct e; simpl in He; try discriminate; injection He as ->; simpl;
    rewrite ?Hc; simpl.
  - unfold add_stop_click, the_card. now rewrite run_bind, Hc.
  - unfold remove_stop_click, update_card. simpl.
    rewrite alter_missing by done. now destruct w.
  - unfold submit, the_card. now rewrite run_bind, Hc.
  - unfold start_click, the_card. now rewrite run_bind, Hc.
  - unfold stop_click, the_card. now rewrite run_bind, Hc.
  - unfold close_click, the_card. now rewrite run_bind, Hc.
  - unfold refresh_click, the_card. now rewrite run_bind, Hc.
Qed.

Lemma event_on_page_dec (e : Event) (w : World) :
  event_on_page e w ∨ ¬ event_on_page e w.
Proof.
  unfold event_on_page. destruct (event_card e) as [card|].
  - destruct (cards w !! card) as [c|] eqn:Hc.
    + left. intros card' [= <-]. eauto.
    + right. intros H. destruct (H card eq_refl) as [c Hc']. congruence.
  - left. intros card'. discriminate.
Qed.

(** X4.  A handler never lets an exception escape when its card is on the
    page: whatever the reply, and whether the render completes or throws, it
    ends normally; and it shows at most one alert. *)
Theorem handler_catches_everything (e : Event) (w : World) :
  event_on_page e w →
  snd (handler e w) = Ok tt ∧
  (alerts (step w e) = alerts w ∨ ∃ msg, alerts (step w e) = alerts w ++ [msg]).
Proof.
  intros Hon. unfold step.
  destruct (handler_run e w Hon) as (w' & shown & -> & _ & Ha & Hlen & _). simpl.
  split; [reflexivity|]. rewrite Ha.
  destruct shown as [|msg [|]]; simpl in Hlen; [|eauto|lia].
  left. apply app_nil_r.
Qed.

(** X5.  An event issues exactly the request of the call it makes, and none
    when it makes no call: a submit whose form does not validate, a close
    that is not confirmed, add and remove issue nothing; no reply and no
    failing render makes a handler issue a second request. *)
Theorem event_issues_its_request (e : Event) (w : World) :
  requests (step w e) = requests w ++ option_list (request_of <$> event_call e w).
Proof.
  destruct (event_on_page_dec e w) as [Hon|Hoff].
  - unfold step. destruct (handler_run e w Hon) as (w' & shown & Hrun & Hreq & _).
    now rewrite Hrun.
  - destruct (handler_off_page e w Hoff) as [-> ->]. simpl. now rewrite app_nil_r.
Qed.


(** ** The outcomes of an action on one instrument *)


(** X9.  When such an action is answered with status 204, the handler
    renders nothing: the client resolves to [null], the render throws on its
    first read, and the page gets the request and the alert of that
    TypeError, with no confirmation. *)
Theorem no_content_action_alerts (e : Event) (card : nat) (c : Card)
    (m : ApiMethod) (response : Response InstrumentState) (w : World) :
  instrument_event e = Some (card, Responded response) →
  cards w !! card = Some c → event_call e w = Some m →
  status response = 204%Z →
  handler e w =
  (with_alerts (alerts w ++ [null_state_message])
     (with_requests (requests w ++ [request_of m]) w), Ok tt).
Proof.
  intros He Hc Hm Hstatus.
  rewrite (instrument_handler_run e card _ c m w) by done.
  now rewrite API_call_no_content by done.
Qed.

(** X16.  When the call of an action on one instrument rejects, whatever the
    action and the reason, the handler changes no card: the page gets the
    request and one alert, the message of the rejection. *)
Theorem rejected_action_alerts_reason (e : Event) (card : nat) (c : Card)
    (m : ApiMethod) (reply : Reply InstrumentState) (err : Exn) (w : World) :
  instrument_event e = Some (card, reply) →
  cards w !! card = Some c → event_call e w = Some m →
  snd (API_call m reply w) = Throw err →
  handler e w =
  (with_alerts (alerts w ++ [exn_message err])
     (with_requests (requests w ++ [request_of m]) w), Ok tt).
Proof.
  intros He Hc Hm Herr.
  rewrite (instrument_handler_run e card _ c m w) by done.
  now rewrite Herr.
Qed.

(** X17.  When such an action is answered with a state that has fewer
    take-profits than the card has rows, the handler leaves the card partly
    rendered (the entry amount and the rows that have a take-profit) and
    alerts the message of the TypeError; a submit shows no confirmation. *)
Theorem short_reply_alerts_type_error (e : Event) (card : nat) (c : Card)
    (m : ApiMethod) (response : Response InstrumentState) (s : InstrumentState)
    (w : World) :
  instrument_event e = Some (card, Responded response) →
  cards w !! card = Some c → event_call e w = Some m →
  ok response = true → status response ≠ 204%Z → json response = Data s →
  length (take_profits (config s)) < length (tp_rows c) →
  handler e w =
  (with_alerts (alerts w ++ [exn_message undefined_take_profit])
     (set_card card (partly_rendered c s)
        (with_requests (requests w ++ [request_of m]) w)), Ok tt).
Proof.
  intros He Hc Hm Hok Hstatus Hjson Hlen.
  rewrite (instrument_handler_run e card _ c m w) by done.
  rewrite API_call_parsed, Hjson by done. cbn [renderInstrument].
  now rewrite (render_state_short card s c) by done.
Qed.

(** ** An invariant of the cards *)

Section CardInvariant.

Variable P : Card → Prop.
Hypothesis P_stop_losses : ∀ c rows, P c → P (with_stop_loss_list rows c).
Hypothesis P_partly_rendered : ∀ c data, P c → P (partly_rendered c data).
Hypothesis P_rendered : ∀ c data entries, P c → P (rendered c data entries).

Lemma every_card_set_card (card : nat) (c : Card) (w : World) :
  every_card P w → P c → every_card P (set_card card c w).
Proof. intros Hw Hc. unfold every_card. simpl. now apply Forall_insert. Qed.

Lemma every_card_render (card : nat) (data : Value InstrumentState) (w : World) :
  every_card P w → every_card P (fst (renderInstrument card data w)).
Proof.
  intros Hw. destruct data as [j|data]; simpl.
  - now destruct j.
  - destruct (render_state_cases card data w)
      as [(_ & -> & _)|[(c & Hc & _ & ->)|(c & Hc & _ & ->)]]; simpl; [done| |].
    + apply every_card_set_card; [done|]. apply P_partly_rendered.
      unfold every_card in Hw. rewrite Forall_lookup in Hw. eauto.
    + apply (every_card_set_card card _ w); [done|]. apply P_rendered.
      unfold every_card in Hw. rewrite Forall_lookup in Hw. eauto.
Qed.

Lemma every_card_forEach {A : Type} (items : list A) (callback : A → nat → M unit) :
  (∀ item index w, every_card P w → every_card P (fst (callback item index w))) →
  ∀ index w, every_card P w → every_card P (fst (forEach items callback index w)).
Proof.
  intros Hcb. induction items as [|item items IH]; intros index w Hw; simpl; [done|].
  rewrite run_bind. specialize (Hcb item index w Hw).
  destruct (callback item index w) as [w' [[]|err]]; simpl in *; [|done].
  now apply IH.
Qed.

Lemma every_card_updateAll (state : Value ManagerState) (w : World) :
  every_card P w → every_card P (fst (updateAll state w)).
Proof.
  intros Hw. destruct state as [j|managerState]; simpl.
  - now destruct j.
  - unfold update_cards. apply every_card_forEach; [|done].
    intros instrument index w' Hw'. unfold render_matching_card.
    rewrite run_bind. pose proof (querySelector_card_world (symbol instrument) w') as Hq.
    destruct (querySelector_card (symbol instrument) w') as [w1 [[card|]|err]];
      simpl in *; subst w1; [|done..].
    now apply (every_card_render card (VData instrument)).
Qed.

Lemma every_card_step (e : Event) (w : World) :
  every_card P w → every_card P (step w e).
Proof.
  intros Hw. destruct (event_on_page_dec e w) as [Hon|Hoff].
  2: { now destruct (handler_off_page e w Hoff) as [-> _]. }
  unfold step.
  destruct (instrument_event e) as [[card reply]|] eqn:He.
  - destruct (Hon card) as [c Hc].
    { destruct e; simpl in *; congruence. }
    destruct (event_call e w) as [m|] eqn:Hm.
    + rewrite (instrument_handler_run e card reply c m w) by done.
      set (w1 := with_requests (requests w ++ [request_of m]) w).
      destruct (snd (API_call m reply w)) as [data|err]; [|done].
      pose proof (every_card_render card data w1 Hw) as Hr.
      now destruct (renderInstrument card data w1) as [w2 [[]|err]].
    + now rewrite (instrument_handler_idle e card reply c w) by done.
  - destruct e as [card|card row| | | | | |reply|reply]; simpl in He; try discriminate.
    + destruct (Hon card) as [c Hc]; [done|]. cbn [handler].
      assert (P c) by (unfold every_card in Hw; rewrite Forall_lookup in Hw; eauto).
      destruct (Nat.lt_ge_cases (length (stop_loss_list c)) 10).
      * rewrite (add_stop_click_below _ c) by done.
        apply every_card_set_card; [done|]. now apply P_stop_losses.
      * now rewrite (add_stop_click_full _ c) by done.
    + destruct (Hon card) as [c Hc]; [done|]. cbn [handler]. unfold remove_stop_click.
      assert (P c) by (unfold every_card in Hw; rewrite Forall_lookup in Hw; eauto).
      rewrite (update_card_run _ _ c) by done.
      apply every_card_set_card; [done|]. now apply P_stop_losses.
    + rewrite (global_handler_run _ StartAll reply) by (left; done).
      set (w1 := with_requests (requests w ++ [request_of StartAll]) w).
      destruct (snd (API_call StartAll reply w)) as [state|err]; [|done].
      pose proof (every_card_updateAll state w1 Hw) as Hr.
      now destruct (updateAll state w1) as [w2 [[]|err]].
    + rewrite (global_handler_run _ StopAll reply) by (right; done).
      set (w1 := with_requests (requests w ++ [request_of StopAll]) w).
      destruct (snd (API_call StopAll reply w)) as [state|err]; [|done].
      pose proof (every_card_updateAll state w1 Hw) as Hr.
      now destruct (updateAll state w1) as [w2 [[]|err]].
Qed.

Lemma every_card_run_events (events : list Event) (w : World) :
  every_card P w → every_card P (run_events events w).
Proof.
  unfold run_events. revert w.
  induction events as [|e events IH]; intros w Hw; simpl; [done|].
  apply IH. now apply every_card_step.
Qed.

End CardInvariant.

(** X15.  The status fields stay in agreement: when on every card the
    [data-running] attribute, the text of the status indicator and the status
    text show one and the same running flag, they still do after any sequence
    of events, whatever the replies and however the renders end. *)
Theorem status_fields_stay_in_agreement (events : list Event) (w : World) :
  Forall status_agrees (cards w) →
  Forall status_agrees (cards (run_events events w)).
Proof.
  apply (every_card_run_events status_agrees).
  - intros c rows Hc. exact Hc.
  - intros c data Hc. exact Hc.
  - intros c data entries _. exists (is_running data). simpl.
    now destruct (open_orders_tbody c), (dca_table_tbody c), (log_list_ul c).
Qed.

(** ** Start-all and stop-all *)

(** X18.  A click on start-all or stop-all whose call rejects changes no
    card: the page gets the request and one alert, the message of the
    rejection.  Answered with status 204 it changes no card either and
    alerts the TypeError of reading [instruments] of [null]. *)
Theorem global_action_without_state (e : Event) (m : ApiMethod)
    (reply : Reply ManagerState) (w : World) :
  global_event e = Some (m, reply) →
  (∀ err, snd (API_call m reply w) = Throw err →
     handler e w =
     (with_alerts (alerts w ++ [exn_message err])
        (with_requests (requests w ++ [request_of m]) w), Ok tt)) ∧
  (∀ response, reply = Responded response → status response = 204%Z →
     handler e w =
     (with_alerts (alerts w ++ [null_manager_message])
        (with_requests (requests w ++ [request_of m]) w), Ok tt)).
Proof.
  intros He.
  assert (Hrun := global_handler_run e m reply w).
  assert (Hcase : e = ClickStartAll reply ∧ m = StartAll
                  ∨ e = ClickStopAll reply ∧ m = StopAll).
  { destruct e; simpl in He; try discriminate; injection He as <- <-; auto. }
  specialize (Hrun Hcase). split.
  - intros err Herr. now rewrite Hrun, Herr.
  - intros response -> Hstatus. now rewrite Hrun, API_call_no_content by done.
Qed.

(** ** A new row is part of the config *)

Section BlankRow.

Context {laws : JsRuntimeLaws rt}.

(** X19.  The row that a click on add-stop appends is read by
    [collectStopLosses] like any other: the stop-losses collected after the
    click are those collected before it and one more, with the numbers that
    [parseFloat] gives for the empty string.  A blank row is not skipped. *)
Theorem added_row_is_collected (card : nat) (c : Card) (w : World) :
  cards w !! card = Some c → length (stop_loss_list c) < 10 →
  snd (collectStopLosses card (step w (AddStop card))) =
  Ok (payload_stop_losses (collected c) ++ [blank_stop_loss]).
Proof.
  intros Hc Hlen. unfold step. cbn [handler].
  rewrite (add_stop_click_below _ c) by done. cbn [fst].
  unfold collectStopLosses. rewrite run_bind.
  erewrite the_card_run by now apply (set_card_lookup _ c).
  rewrite run_ret. cbn [snd stop_loss_list with_stop_loss_list collected
                         payload_stop_losses].
  rewrite map_app. simpl. unfold blank_stop_loss.
  now rewrite sanitize_number_empty.
Qed.

End BlankRow.

(** ** Start-all and stop-all, card by card *)













Lemma card_after_symbol (cs : list Card) (store : list (list LogEntry))
    (done : list InstrumentState) (i : nat) (c : Card) :
  data_symbol (card_after cs store done i c) = data_symbol c.
Proof.
  unfold card_after. destruct (bool_decide _); [|reflexivity].
  destruct (last_match done c); [|reflexivity].
  reflexivity.
Qed.


Lemma last_match_fills (cs : list Card) (done : list InstrumentState) (i : nat)
    (c : Card) (s : InstrumentState) :
  Forall (fills cs) done → first_card (data_symbol c) cs = Some (i, c) →
  last_match done c = Some s →
  symbol s = data_symbol c ∧ length (tp_rows c) ≤ length (take_profits (config s)).
Proof.
  intros Hfills Hfirst. induction Hfills as [|s' done Hs' _ IH]; simpl; [discriminate|].
  destruct (last_match done c) as [s''|]; [intros [= <-]; now apply IH|].
  destruct (decide (symbol s' = data_symbol c)) as [Hsym|]; [|discriminate].
  intros [= <-]. split; [exact Hsym|].
  unfold fills in Hs'. now rewrite Hsym, Hfirst in Hs'.
Qed.



End FurtherProperties.

(** ** The decimal runtime satisfies the laws *)

Lemma trim_start_no_blank (s : string) : no_blank s = true → trim_start s = s.
Proof.
  destruct s as [|c rest]; simpl; [reflexivity|].
  intros H. apply andb_true_iff in H as [Hc _].
  apply negb_true_iff in Hc. now rewrite Hc.
Qed.

Lemma trim_end_no_blank (s : string) : no_blank s = true → trim_end s = s.
Proof.
  induction s as [|c rest IH]; simpl; [reflexivity|].
  intros H. apply andb_true_iff in H as [Hc Hrest].
  apply negb_true_iff in Hc. rewrite (IH Hrest), Hc. now destruct rest.
Qed.

Lemma decimal_no_blank (d : Decimal.uint) : no_blank (NilEmpty.string_of_uint d) = true.
Proof. induction d; simpl; auto. Qed.

Lemma decimal_nonempty (n : N) : NilEmpty.string_of_uint (N.to_uint n) ≠ "".
Proof.
  destruct n as [|p]; simpl; [discriminate|].
  pose proof (DecimalPos.Unsigned.to_uint_nonnil p) as Hnil.
  destruct (Pos.to_uint p); simpl; congruence.
Qed.

Lemma dnum_parse_to_string (n : N) : dnum_parse (dnum_to_string (DNat n)) = DNat n.
Proof.
  unfold dnum_parse. simpl.
  pose proof (decimal_nonempty n) as Hne.
  destruct (NilEmpty.string_of_uint (N.to_uint n)) as [|c rest] eqn:Hs; [congruence|].
  rewrite <- Hs, NilEmpty.usu. now rewrite DecimalN.Unsigned.of_to.
Qed.

#[global] Instance decimal_runtime_laws : JsRuntimeLaws decimal_runtime.
Proof.
  split.
  - intros [|n] Hfin; [discriminate Hfin|]. apply dnum_parse_to_string.
  - intros [|n] Hfin; [discriminate Hfin|].
    change (dnum_sanitize (dnum_to_string (DNat n)) = dnum_to_string (DNat n)).
    unfold dnum_sanitize. now rewrite dnum_parse_to_string.
  - intros [|n] Hfin; [discriminate Hfin|].
    change (ascii_trim (NilEmpty.string_of_uint (N.to_uint n))
            = NilEmpty.string_of_uint (N.to_uint n)).
    unfold ascii_trim.
    rewrite trim_start_no_blank, trim_end_no_blank; auto using decimal_no_blank.
  - intros [|n]; [discriminate|]. apply decimal_nonempty.
  - reflexivity.
  - reflexivity.
Qed.

(** ** Evaluation on the pages *)

Lemma request_capped_decided (rs : list Request) :
  Forall request_capped rs → forallb request_cappedb rs = true.
Proof.
  induction 1 as [|r rs Hr _ IH]; simpl; [reflexivity|].
  rewrite IH, andb_true_r. unfold request_cappedb.
  destruct (body r) as [payload|] eqn:Hb; [|reflexivity].
  apply Nat.leb_le. now apply Hr.
Qed.

(** C1 fails as stated: after a start whose response carries 11 stop-losses,
    the submit sends a config with 11 stop-losses, although the page started
    with no stop-loss row at all. *)
Lemma eleven_stop_losses_submitted :
  ¬ (∀ (w0 : World) (events : list Event),
       Forall card_capped (cards w0) → Forall request_capped (requests w0) →
       Forall request_capped (requests (run_events events w0))).
Proof.
  intros H.
  assert (Hreq : Forall request_capped (requests (run_events eleven_stops_events btc_page))).
  { apply H; [|constructor]. repeat constructor. }
  apply request_capped_decided in Hreq.
  assert (Hrun : forallb request_cappedb (requests (run_events eleven_stops_events btc_page))
                 = false) by evaluate.
  congruence.
Qed.

Lemma data_reply_shaped {T : Type} (name : string) (code : Z) (text : string) (v : T) :
  reply_shaped name (replied code text (Data v)).
Proof. intros response j [= <-] _ _ Hj. discriminate Hj. Qed.

Lemma submitted_stop_losses_capped_witness :
  Forall request_capped (requests (run_events capped_events btc_page)) ∧
  Forall card_capped (cards (run_events capped_events btc_page)).
Proof.
  apply submitted_stop_losses_capped.
  - repeat constructor.
  - constructor.
  - repeat (apply Forall_cons; split).
    1-4: split; [exact I|constructor].
    3: constructor.
    + split; [apply data_reply_shaped|]. repeat constructor; vm_compute; lia.
    + split; [apply data_reply_shaped|]. repeat constructor; vm_compute; lia.
Defined.

(** C2 fails as stated: with the body [{"detail": ""}] the message is the
    status text, not the (empty) detail. *)
Lemma empty_detail_is_skipped :
  ¬ (∀ (m : ApiMethod) (response : Response InstrumentState) (X : string) (w : World),
       ok response = false →
       json response = Document (JObj [("detail", JStr X)]) →
       snd (API_call m (Responded response) w) = Throw (Error X)).
Proof.
  intros H.
  specialize (H (Start "BTCUSDT") empty_detail "" btc_page eq_refl eq_refl).
  assert (Hrun : snd (API_call (Start "BTCUSDT") (Responded empty_detail) btc_page)
                 = Throw (Error "Bad Request")) by evaluate.
  rewrite Hrun in H. discriminate H.
Qed.

Lemma rejection_message_priority_witness :
  ((∀ X : string, body_detail detail_X = Some (JStr X) → X ≠ "" →
      snd (API_call (Start "BTCUSDT") (Responded detail_X) btc_page) = Throw (Error X)) ∧
   (truthy (body_detail detail_X) = true →
      ∃ j : Json, body_detail detail_X = Some j ∧
        snd (API_call (Start "BTCUSDT") (Responded detail_X) btc_page) =
        match ToString j with
        | Ok msg => Throw (Error msg)
        | Throw e => Throw e
        end) ∧
   (∀ fields, body_detail detail_X = Some (JObj fields) →
      snd (API_call (Start "BTCUSDT") (Responded detail_X) btc_page) =
      if has_own "toString" fields then Throw not_primitive
      else Throw (Error "[object Object]")) ∧
   (truthy (body_detail detail_X) = false → statusText detail_X ≠ "" →
      snd (API_call (Start "BTCUSDT") (Responded detail_X) btc_page) =
      Throw (Error (statusText detail_X))) ∧
   (truthy (body_detail detail_X) = false → statusText detail_X = "" →
      snd (API_call (Start "BTCUSDT") (Responded detail_X) btc_page) =
      Throw (Error fallback_message))) ∧
  snd (API_call (Start "BTCUSDT") (Responded detail_toString) btc_page) =
  (if has_own "toString" [("toString", JNull)] then Throw not_primitive
   else Throw (Error "[object Object]")).
Proof.
  split.
  - apply rejection_message_priority; [evaluate|discriminate].
  - refine (proj1 (proj2 (proj2
              (rejection_message_priority (Start "BTCUSDT") detail_toString btc_page _ _)))
              [("toString", JNull)] _);
      [evaluate|discriminate|evaluate].
Defined.

Lemma blank_dca_throws_before_request_witness :
  collectConfig 0 (page_of [blank_dca_card]) =
    (page_of [blank_dca_card], Throw (Error dca_required_message)) ∧
  submit 0 (replied 200 "OK" (Data two_stops)) (page_of [blank_dca_card]) =
    (with_alerts (alerts (page_of [blank_dca_card]) ++ [dca_required_message])
       (page_of [blank_dca_card]), Ok tt) ∧
  requests (fst (submit 0 (replied 200 "OK" (Data two_stops)) (page_of [blank_dca_card])))
  = requests (page_of [blank_dca_card]).
Proof.
  apply (blank_dca_throws_before_request 0 blank_dca_card).
  - evaluate.
  - evaluate.
  - left. evaluate.
Defined.

Lemma no_content_resolves_to_null_witness :
  snd (API_call (UpdateConfig "BTCUSDT" (collected (card_of "BTCUSDT" [tp_row_1])))
         (Responded no_content) btc_page) = Ok (VJson JNull).
Proof. apply no_content_resolves_to_null. evaluate. Defined.

Lemma failed_submit_renders_nothing_witness :
  snd (submit 0 (NetworkFailure "Failed to fetch") btc_page) = Ok tt ∧
  cards (fst (submit 0 (NetworkFailure "Failed to fetch") btc_page)) = cards btc_page ∧
  arrays (fst (submit 0 (NetworkFailure "Failed to fetch") btc_page)) = arrays btc_page ∧
  alerts (fst (submit 0 (NetworkFailure "Failed to fetch") btc_page)) =
  alerts btc_page ++ [exn_message (TypeError "Failed to fetch")].
Proof.
  apply (failed_submit_renders_nothing 0 (card_of "BTCUSDT" [tp_row_1])).
  - evaluate.
  - right. exists (collected (card_of "BTCUSDT" [tp_row_1])).
    split; evaluate.
Defined.

Lemma add_stop_is_capped_witness :
  ∃ c' : Card,
    cards (run_events (replicate 12 (AddStop 0)) btc_page) !! 0 = Some c' ∧
    length (stop_loss_list c') = 12 `min` 10 ∧
    length (stop_loss_list c') ≤ 10.
Proof.
  refine (proj2 (proj2 (add_stop_is_capped 0 (card_of "BTCUSDT" [tp_row_1]) btc_page _))
            _ 12);
    evaluate.
Defined.

(** C7 fails as stated: a state with two take-profits rendered on a card with
    one take-profit row is collected with one take-profit. *)
Lemma extra_take_profit_is_lost :
  ¬ (∀ (card : nat) (c : Card) (data : InstrumentState) (w : World),
       cards w !! card = Some c → finite_config (config data) →
       ∃ (w1 : World) (payload : ConfigPayload),
         renderInstrument card (VData data) w = (w1, Ok tt) ∧
         collectConfig card w1 = (w1, Ok payload) ∧
         payload_entry_amount payload = entry_amount (config data) ∧
         map tp_numbers (payload_take_profits payload) =
         map tp_numbers (take_profits (config data)) ∧
         payload_stop_losses payload = stop_losses (config data) ∧
         payload_tp1_dca payload = tp1_dca (config data)).
Proof.
  intros H.
  destruct (H 0 (card_of "BTCUSDT" [tp_row_1]) two_take_profits btc_page)
    as (w1 & payload & Hrender & Hcollect & _ & Htps & _).
  { evaluate. }
  { repeat split; repeat constructor; intros x [=]. }
  assert (Hrun : match snd (collectConfig 0
                              (fst (renderInstrument 0 (VData two_take_profits) btc_page)))
                 with
                 | Ok p => length (payload_take_profits p)
                 | Throw _ => 0
                 end = 1) by evaluate.
  rewrite Hrender in Hrun. cbn [fst] in Hrun. rewrite Hcollect in Hrun. cbn [snd] in Hrun.
  apply (f_equal length) in Htps. rewrite !length_map, Hrun in Htps.
  discriminate Htps.
Qed.

Lemma render_then_collect_witness :
  ∃ (w1 : World) (payload : ConfigPayload),
    renderInstrument 0 (VData one_take_profit) btc_page = (w1, Ok tt) ∧
    collectConfig 0 w1 = (w1, Ok payload) ∧
    payload_entry_amount payload = entry_amount (config one_take_profit) ∧
    map tp_numbers (payload_take_profits payload) =
    map tp_numbers (take_profits (config one_take_profit)) ∧
    payload_stop_losses payload = stop_losses (config one_take_profit) ∧
    payload_tp1_dca payload = tp1_dca (config one_take_profit).
Proof.
  apply (render_then_collect 0 (card_of "BTCUSDT" [tp_row_1])).
  - evaluate.
  - repeat split; repeat constructor; intros x [=].
  - evaluate.
  - intros [=].
Defined.

(** C8 fails as stated: rendering a state with no take-profit on a card with
    one take-profit row throws before the log list is written, so the log
    list keeps its old content. *)
Lemma log_list_not_written :
  ¬ (∀ (card : nat) (c : Card) (data : InstrumentState) (old : string) (w : World),
       cards w !! card = Some c → log_list_ul c = Some old →
       ∃ c' : Card,
         cards (fst (renderInstrument card (VData data) w)) !! card = Some c' ∧
         log_list_ul c' =
         Some (String.concat "" (map log_item (rev (arrays w !!! logs data))))).
Proof.
  intros H.
  destruct (H 0 (card_of "BTCUSDT" [tp_row_1]) no_take_profits "" btc_page)
    as (c' & Hc' & Hlog); [evaluate|evaluate|].
  assert (Hitems : String.eqb
                     (String.concat ""
                        (map log_item (rev (arrays btc_page !!! logs no_take_profits)))) ""
                   = false) by evaluate.
  apply String.eqb_neq in Hitems.
  assert (Hrun : log_list_ul <$>
                 cards (fst (renderInstrument 0 (VData no_take_profits) btc_page)) !! 0
                 = Some (Some "")) by evaluate.
  rewrite Hc' in Hrun. cbn [fmap option_fmap option_map] in Hrun.
  rewrite Hlog in Hrun. congruence.
Qed.

Lemma log_list_is_reversed_copy_witness :
  ∃ c' : Card,
    snd (renderInstrument 0 (VData one_take_profit) btc_page) = Ok tt ∧
    cards (fst (renderInstrument 0 (VData one_take_profit) btc_page)) !! 0 = Some c' ∧
    log_list_ul c' =
    Some (String.concat "" (map log_item (rev (arrays btc_page !!! logs one_take_profit)))).
Proof.
  refine (proj2 (log_list_is_reversed_copy 0 one_take_profit btc_page)
            (card_of "BTCUSDT" [tp_row_1]) "" _ _ _).
  - evaluate.
  - evaluate.
  - vm_compute. lia.
Defined.



Lemma render_is_partial_in_take_profits_witness :
  (length (take_profits (config no_take_profits)) <
   length (tp_rows (card_of "BTCUSDT" [tp_row_1])) →
   renderInstrument 0 (VData no_take_profits) btc_page =
   (set_card 0 (partly_rendered (card_of "BTCUSDT" [tp_row_1]) no_take_profits) btc_page,
    Throw undefined_take_profit) ∧
   entry_amount_input (partly_rendered (card_of "BTCUSDT" [tp_row_1]) no_take_profits) =
   set_value (num_to_string (entry_amount (config no_take_profits))) ∧
   tp_rows (partly_rendered (card_of "BTCUSDT" [tp_row_1]) no_take_profits) =
   write_tp_rows (tp_rows (card_of "BTCUSDT" [tp_row_1]))
     (take_profits (config no_take_profits)) ∧
   stop_loss_list (partly_rendered (card_of "BTCUSDT" [tp_row_1]) no_take_profits) =
   stop_loss_list (card_of "BTCUSDT" [tp_row_1]) ∧
   dca_enabled_checked (partly_rendered (card_of "BTCUSDT" [tp_row_1]) no_take_profits) =
   dca_enabled_checked (card_of "BTCUSDT" [tp_row_1]) ∧
   data_running (partly_rendered (card_of "BTCUSDT" [tp_row_1]) no_take_profits) =
   data_running (card_of "BTCUSDT" [tp_row_1]) ∧
   log_list_ul (partly_rendered (card_of "BTCUSDT" [tp_row_1]) no_take_profits) =
   log_list_ul (card_of "BTCUSDT" [tp_row_1])) ∧
  (∀ kept extra : list TakeProfit,
     take_profits (config no_take_profits) = kept ++ extra →
     length kept = length (tp_rows (card_of "BTCUSDT" [tp_row_1])) →
     renderInstrument 0 (VData no_take_profits) btc_page =
     renderInstrument 0 (VData (with_take_profits kept no_take_profits)) btc_page).
Proof.
  apply (render_is_partial_in_take_profits 0 (card_of "BTCUSDT" [tp_row_1])).
  evaluate.
Defined.

(** ** Evaluation of the further properties *)

Lemma tab_click_activates_one_pair_witness :
  snd (tab_click 1 three_tabs) = Ok tt ∧
  tab_buttons (fst (tab_click 1 three_tabs)) =
  imap (λ i b, {| data_target := data_target b;
                  button_active := bool_decide (i = 1) |}) (tab_buttons three_tabs) ∧
  tab_contents (fst (tab_click 1 three_tabs)) =
  imap (λ i s, {| data_tab := data_tab s;
                  content_active := bool_decide (i = 1) |}) (tab_contents three_tabs).
Proof.
  apply (tab_click_activates_one_pair 1 1
           {| data_target := "status"; button_active := false |}
           {| data_tab := "status"; content_active := false |});
    evaluate.
Defined.

Lemma tab_click_without_section_witness :
  snd (tab_click 1 orphan_tabs) = Throw no_tab_section ∧
  tab_buttons (fst (tab_click 1 orphan_tabs)) =
  imap (λ i b, {| data_target := data_target b;
                  button_active := bool_decide (i = 1) |}) (tab_buttons orphan_tabs) ∧
  tab_contents (fst (tab_click 1 orphan_tabs)) =
  (λ s, {| data_tab := data_tab s; content_active := false |})
    <$> tab_contents orphan_tabs.
Proof.
  apply (tab_click_without_section 1
           {| data_target := "history"; button_active := false |}).
  - evaluate.
  - evaluate.
  - intros s Hs. apply elem_of_cons in Hs as [->|Hs]; [discriminate|].
    now apply elem_of_nil in Hs.
Defined.

Lemma remove_undoes_add_witness :
  run_events [AddStop 0; RemoveStop 0 (length (stop_loss_list btc_card))] btc_page
  = btc_page.
Proof.
  refine (proj1 (remove_undoes_add 0 btc_card btc_page _) _);
    [evaluate|vm_compute; lia].
Defined.

Lemma handler_catches_everything_witness :
  snd (handler (Submit 0 (NetworkFailure "Failed to fetch")) btc_page) = Ok tt ∧
  (alerts (step btc_page (Submit 0 (NetworkFailure "Failed to fetch"))) = alerts btc_page ∨
   ∃ msg, alerts (step btc_page (Submit 0 (NetworkFailure "Failed to fetch")))
          = alerts btc_page ++ [msg]).
Proof.
  apply handler_catches_everything.
  intros card Hcard. simpl in Hcard. injection Hcard as <-.
  exists btc_card. evaluate.
Defined.



Lemma no_content_action_alerts_witness :
  handler (ClickClose 0 true (Responded no_content)) btc_page =
  (with_alerts (alerts btc_page ++ [null_state_message])
     (with_requests (requests btc_page ++ [request_of (Close "BTCUSDT")]) btc_page),
   Ok tt).
Proof.
  apply (no_content_action_alerts _ 0 btc_card (Close "BTCUSDT") no_content); evaluate.
Defined.

Lemma rejected_action_alerts_reason_witness :
  handler (ClickStop 0 (NetworkFailure "Failed to fetch")) btc_page =
  (with_alerts (alerts btc_page ++ [exn_message (TypeError "Failed to fetch")])
     (with_requests (requests btc_page ++ [request_of (Stop "BTCUSDT")]) btc_page),
   Ok tt).
Proof.
  apply (rejected_action_alerts_reason _ 0 btc_card (Stop "BTCUSDT")
           (NetworkFailure "Failed to fetch"));
    evaluate.
Defined.

Lemma short_reply_alerts_type_error_witness :
  handler (Submit 0 (Responded ok_no_take_profits)) btc_page =
  (with_alerts (alerts btc_page ++ [exn_message undefined_take_profit])
     (set_card 0 (partly_rendered btc_card no_take_profits)
        (with_requests
           (requests btc_page ++ [request_of (UpdateConfig "BTCUSDT" (collected btc_card))])
           btc_page)), Ok tt).
Proof.
  apply (short_reply_alerts_type_error _ 0 btc_card
           (UpdateConfig "BTCUSDT" (collected btc_card)) ok_no_take_profits).
  - evaluate.
  - evaluate.
  - evaluate.
  - evaluate.
  - intros [=].
  - evaluate.
  - vm_compute. lia.
Defined.

Lemma success_resolves_to_parsed_body_witness :
  snd (API_call (RefreshInstrument "BTCUSDT") (Responded ok_two_stops) btc_page) =
  match json ok_two_stops with
  | ParseFailure reason => Throw (SyntaxError reason)
  | Document j => Ok (VJson j)
  | Data v => Ok (VData v)
  end.
Proof.
  apply success_resolves_to_parsed_body; [evaluate|intros [=]].
Defined.

Lemma null_error_body_is_type_error_witness :
  snd (API_call (Start "BTCUSDT") (Responded null_body) btc_page) =
  Throw (TypeError "Cannot read properties of null (reading 'detail')").
Proof.
  apply null_error_body_is_type_error; evaluate.
Defined.

Lemma collectConfig_reads_the_card_witness :
  fst (collectConfig 0 btc_page) = btc_page ∧
  (snd (collectConfig 0 btc_page) = Throw (Error dca_required_message) ∨
   ∃ payload, snd (collectConfig 0 btc_page) = Ok payload) ∧
  (dca_enabled_checked btc_card = false →
   ∃ payload, snd (collectConfig 0 btc_page) = Ok payload ∧
     enabled (payload_tp1_dca payload) = false ∧
     (dca_offset_percent (payload_tp1_dca payload) = None
      ↔ trim (dca_offset_input btc_card) = "") ∧
     (quantity (payload_tp1_dca payload) = None
      ↔ trim (dca_quantity_input btc_card) = "")) ∧
  (∀ payload, snd (collectConfig 0 btc_page) = Ok payload →
     payload_symbol payload = data_symbol btc_card ∧
     label <$> payload_take_profits payload = data_label <$> tp_rows btc_card ∧
     length (payload_stop_losses payload) = length (stop_loss_list btc_card) ∧
     (enabled (payload_tp1_dca payload) = true →
      is_Some (dca_offset_percent (payload_tp1_dca payload)) ∧
      is_Some (quantity (payload_tp1_dca payload)))).
Proof.
  apply (collectConfig_reads_the_card 0 btc_card). evaluate.
Defined.

Lemma status_fields_stay_in_agreement_witness :
  Forall status_agrees (cards (run_events capped_events btc_page)).
Proof.
  apply status_fields_stay_in_agreement.
  repeat constructor. exists false. repeat split.
Defined.

Lemma global_action_without_state_witness :
  handler (ClickStartAll (Responded no_content_all)) two_cards =
  (with_alerts (alerts two_cards ++ [null_manager_message])
     (with_requests (requests two_cards ++ [request_of StartAll]) two_cards), Ok tt).
Proof.
  refine (proj2 (global_action_without_state
                   (ClickStartAll (Responded no_content_all)) StartAll
                   (Responded no_content_all) two_cards _) no_content_all _ _);
    evaluate.
Defined.

Lemma added_row_is_collected_witness :
  snd (collectStopLosses 0 (step btc_page (AddStop 0))) =
  Ok (payload_stop_losses (collected btc_card) ++ [blank_stop_loss]).
Proof.
  apply (added_row_is_collected 0 btc_card); [evaluate|vm_compute; lia].
Defined.
